(** * PresentationView: slide derivation and deck session

    A shallow embedding of the logic of
    [src/components/PresentationView.tsx]: the derivation of the slide
    deck from the generated text (the [useEffect] of lines 45-64), the
    navigation handlers (lines 68-76 and 233), the download handler
    (lines 78-88), the edit toggle (lines 90-101) and the slide editor
    (lines 103-114).

    JavaScript strings are sequences of UTF-16 code units; a code unit
    is a number below 65536, written here as an [N].  Array indices and
    the state variable [currentSlideIndex] are JavaScript numbers that
    only ever hold integers; they are written as [Z]. *)

From Stdlib Require Import ZArith NArith List String Ascii Bool Lia.
From Stdlib Require Import Numbers.DecimalString.
From Stdlib Require DecimalNat.
From stdpp Require Import base list.
Import ListNotations.

Local Open Scope Z_scope.
Local Open Scope list_scope.

(* ===================================================================== *)
(** ** JavaScript strings *)
(* ===================================================================== *)

Abbreviation char16 := N (only parsing).
Abbreviation jsstring := (list N) (only parsing).

(** A string literal of the source whose characters are all ASCII. *)
Definition js (s : string) : jsstring :=
  List.map N_of_ascii (list_ascii_of_string s).

(** The code unit of the escape [\n]. *)
Definition LF : char16 := 10%N.

(** [Number::toString] for a non-negative integer below 10^21: the
    decimal digits, no sign, no leading zero. *)
Definition Number_toString (n : nat) : jsstring :=
  js (NilZero.string_of_uint (Nat.to_uint n)).

(** [Boolean(s)] on a string: true exactly for the non-empty ones. *)
Definition Boolean (s : jsstring) : bool :=
  match s with
  | [] => false
  | _ :: _ => true
  end.

(** Puts a code unit in front of the first block of a block list. *)
Definition cons_head (c : char16) (bs : list jsstring) : list jsstring :=
  match bs with
  | [] => [[c]]
  | b :: bs' => (c :: b) :: bs'
  end.

(** [s.split('\n\n')] (line 47).  [String.prototype.split] with a
    string separator searches the separator from left to right; each
    occurrence found closes the current block and the search resumes
    right after it, so that occurrences never overlap.  The blocks are
    returned in order, the last one running to the end of the string;
    the result of splitting the empty string is [[""]]. *)
Fixpoint split_nn (s : jsstring) : list jsstring :=
  match s with
  | [] => [[]]
  | c :: r =>
      match r with
      | d :: r' =>
          if (c =? LF)%N && (d =? LF)%N then [] :: split_nn r'
          else cons_head c (split_nn r)
      | [] => [[c]]
      end
  end.

(** [blocks.join(sep)]. *)
Fixpoint join (sep : jsstring) (bs : list jsstring) : jsstring :=
  match bs with
  | [] => []
  | [b] => b
  | b :: bs' => b ++ sep ++ join sep bs'
  end.

(** [xs.map((x, index) => f x index)], counting from [i]. *)
Fixpoint mapi_from {A B : Type} (f : A -> nat -> B) (i : nat) (xs : list A)
  : list B :=
  match xs with
  | [] => []
  | x :: xs' => f x i :: mapi_from f (S i) xs'
  end.

Definition mapi {A B : Type} (f : A -> nat -> B) (xs : list A) : list B :=
  mapi_from f 0%nat xs.

(* ===================================================================== *)
(** ** Data model *)
(* ===================================================================== *)

(** The property names of a slide object. *)
Inductive Key : Set := Ktitle | Kcontent | KimageUrl | Kstyle.

Definition Key_eqb (a b : Key) : bool :=
  match a, b with
  | Ktitle, Ktitle | Kcontent, Kcontent
  | KimageUrl, KimageUrl | Kstyle, Kstyle => true
  | _, _ => false
  end.

(** Property values of a slide: a string, or the object of rendering
    hints stored under [style] (its own properties, in insertion order;
    [getSlideStyles], lines 116-134, reads [alignment], [textColor],
    [gradient], [backgroundColor] and [fontSize] from it). *)
Inductive Val : Type :=
  | VStr (s : jsstring)
  | VObj (hints : list (jsstring * jsstring)).

(** Modelled from the spec: the interface [SlideContent] is declared in
    [services/presentationService], which is not part of the sources at
    hand.  Section 3 of the specification gives a slide the properties
    [title], [content], [imageUrl] and [style].  A slide object is kept
    as the list of its own properties in insertion order, which is the
    order in which object spread and [JSON.stringify] visit them. *)
Definition SlideContent : Type := list (Key * Val).

(** [o[k]]: [None] stands for [undefined]. *)
Fixpoint get (k : Key) (o : SlideContent) : option Val :=
  match o with
  | [] => None
  | (k', v) :: o' => if Key_eqb k k' then Some v else get k o'
  end.

(** [o[k] = v] on an ordinary object: an existing property keeps its
    place, a new one goes last. *)
Fixpoint set (k : Key) (v : Val) (o : SlideContent) : SlideContent :=
  match o with
  | [] => [(k, v)]
  | (k', v') :: o' =>
      if Key_eqb k k' then (k, v) :: o' else (k', v') :: set k v o'
  end.

(** [{...x}] where [x] is an array element: spreading [undefined]
    copies nothing. *)
Definition spread (x : option SlideContent) : SlideContent :=
  match x with
  | Some o => o
  | None => []
  end.

(** Modelled from the spec: the interface [Presentation] is declared in
    [services/presentationService] as well; its four properties are
    those of section 3 of the specification and of the object literals
    of lines 32-37 and 57-62.  Every deck the component stores is made
    by one of these literals or by a spread of a stored deck, so the
    four properties are always present and in this order.  An element
    of [slides] is [None] where the array has a hole. *)
Record Presentation : Type := mkPresentation {
  id : jsstring;
  createdAt : jsstring;
  title : jsstring;
  slides : list (option SlideContent)
}.

(** The slide object literal of lines 49-54. *)
Definition new_slide (content : jsstring) (index : nat) : SlideContent :=
  [ (Ktitle, VStr (js "Slide " ++ Number_toString (index + 1)));
    (Kcontent, VStr content);
    (KimageUrl, VStr []);
    (Kstyle, VObj []) ].

(** Lines 46-54: [result.split('\n\n').filter(Boolean).map(...)]. *)
Definition derive_slides (result : jsstring) : list (option SlideContent) :=
  mapi (fun content index => Some (new_slide content index))
       (List.filter Boolean (split_nn result)).

(** The deck builder: the object stored by lines 57-62.  The values of
    [uuidv4()] and [new Date().toISOString()] come from the environment
    and are taken as arguments. *)
Definition build (rawText title uuid now : jsstring) : Presentation :=
  {| id := uuid;
     createdAt := now;
     title := title;
     slides := derive_slides rawText |}.

(* ===================================================================== *)
(** ** The component *)
(* ===================================================================== *)

Module Props.
(** [PresentationViewProps], lines 11-20.  [result] and [source] are
    the two properties of [presentation]; [onSave] tells whether the
    optional callback was passed. *)
Record t : Type := mk {
  result : jsstring;
  source : jsstring;
  title : jsstring;
  onSave : bool
}.
End Props.

(** The three [useState] cells, lines 30-37. *)
Record State : Type := mkState {
  currentSlideIndex : Z;
  isEditing : bool;
  processedPresentation : Presentation
}.

(** Calls made to the outside, in the order they happen. *)
Inductive Event : Type :=
  | onSave_call (p : Presentation)
  | toast_call.

(** The initial values of the state cells. *)
Definition initial (props : Props.t) (uuid now : jsstring) : State :=
  {| currentSlideIndex := 0;
     isEditing := false;
     processedPresentation :=
       {| id := uuid; createdAt := now; title := Props.title props;
          slides := [] |} |}.

(** Lines 40-42. *)
Definition defaultTitle (props : Props.t) : jsstring :=
  if Boolean (Props.source props)
     && bool_decide (Props.source props <> js "gemini-api")
  then Props.source props
  else Props.title props.

(** The body of the effect, lines 45-64: its only state update is
    [setProcessedPresentation]. *)
Definition rebuild (props : Props.t) (uuid now : jsstring) (s : State)
  : State :=
  {| currentSlideIndex := currentSlideIndex s;
     isEditing := isEditing s;
     processedPresentation :=
       build (Props.result props) (Props.title props) uuid now |}.

(** The effect runs after a render whose dependencies
    [[presentation.result, presentation.source]] differ from those of
    the previous render. *)
Definition props_change (old new : Props.t) (uuid now : jsstring)
    (s : State) : State :=
  if bool_decide (Props.result old = Props.result new)
     && bool_decide (Props.source old = Props.source new)
  then s
  else rebuild new uuid now s.

(** [processedPresentation.slides.length]. *)
Definition slides_length (s : State) : Z :=
  Z.of_nat (length (slides (processedPresentation s))).

(** Lines 68-70. *)
Definition goToPreviousSlide (s : State) : State :=
  let prev := currentSlideIndex s in
  {| currentSlideIndex := if 0 <? prev then prev - 1 else prev;
     isEditing := isEditing s;
     processedPresentation := processedPresentation s |}.

(** Lines 72-76. *)
Definition goToNextSlide (s : State) : State :=
  let prev := currentSlideIndex s in
  {| currentSlideIndex :=
       if prev <? slides_length s - 1 then prev + 1 else prev;
     isEditing := isEditing s;
     processedPresentation := processedPresentation s |}.

(** The click handler of a slide dot, line 233:
    [setCurrentSlideIndex(index)]. *)
Definition jumpTo (index : Z) (s : State) : State :=
  {| currentSlideIndex := index;
     isEditing := isEditing s;
     processedPresentation := processedPresentation s |}.

(** The change handler of the deck title input, lines 149-152. *)
Definition setTitle (value : jsstring) (s : State) : State :=
  let prev := processedPresentation s in
  {| currentSlideIndex := currentSlideIndex s;
     isEditing := isEditing s;
     processedPresentation :=
       {| id := id prev; createdAt := createdAt prev; title := value;
          slides := slides prev |} |}.

(** [xs[i]] for an integer [i]: [None] stands for [undefined], which is
    what a hole and an index outside the array both read as.  A
    negative [i] reads an ordinary property of the array object; the
    arrays of the component get one only by a write at a negative
    index, and the index of a session is never negative
    ([reachable_invariant]). *)
Definition array_get {A : Type} (xs : list (option A)) (i : Z) : option A :=
  if i <? 0 then None
  else match xs !! Z.to_nat i with
       | Some x => x
       | None => None
       end.

(** [xs[i] = x] for an integer [i], as far as the elements go.  Inside
    the array the element is replaced; past the end the array grows,
    with holes between the old end and [i].  A negative [i], or one
    that is no array index (2^32 - 1 and above), names an ordinary
    property: the elements and the length stay as they are. *)
Definition array_set {A : Type} (xs : list (option A)) (i : Z) (x : A)
  : list (option A) :=
  if i <? 0 then xs
  else if i <? Z.of_nat (length xs) then <[Z.to_nat i := Some x]> xs
  else if i <? 2 ^ 32 - 1
       then xs ++ replicate (Z.to_nat i - length xs) None ++ [Some x]
       else xs.

(** Lines 103-114.  [field] ranges over [keyof SlideContent], a [Key]
    here; the string [value] is stored under it, whichever key it is. *)
Definition updateSlideContent (field : Key) (value : jsstring) (s : State)
  : State :=
  let updatedSlides := slides (processedPresentation s) in
  let updatedSlides :=
    array_set updatedSlides (currentSlideIndex s)
      (set field (VStr value)
           (spread (array_get updatedSlides (currentSlideIndex s)))) in
  let prev := processedPresentation s in
  {| currentSlideIndex := currentSlideIndex s;
     isEditing := isEditing s;
     processedPresentation :=
       {| id := id prev; createdAt := createdAt prev; title := title prev;
          slides := updatedSlides |} |}.

(** Lines 90-101. *)
Definition handleEditToggle (props : Props.t) (s : State)
  : State * list Event :=
  let calls :=
    if isEditing s then
      if Props.onSave props
      then [onSave_call (processedPresentation s); toast_call]
      else []
    else [] in
  ({| currentSlideIndex := currentSlideIndex s;
      isEditing := negb (isEditing s);
      processedPresentation := processedPresentation s |},
   calls).

(* ===================================================================== *)
(** ** What the component renders *)
(* ===================================================================== *)

(** [processedPresentation.slides[currentSlideIndex]], line 66. *)
Definition currentSlide (s : State) : option SlideContent :=
  array_get (slides (processedPresentation s)) (currentSlideIndex s).

(** The outcome of the render function, lines 136-287.  With no slide
    it returns the loading placeholder.  Otherwise [getSlideStyles]
    reads [currentSlide.style], which throws when [currentSlide] is
    [undefined]; outside of edit mode line 198 calls
    [currentSlide.content.split], which throws when there is no
    [content].  A render that throws leaves nothing on the screen. *)
Inductive View : Set := Loading | Card | Thrown.

Definition render (s : State) : View :=
  if slides_length s =? 0 then Loading
  else match currentSlide s with
       | None => Thrown
       | Some slide =>
           if isEditing s then Card
           else match get Kcontent slide with
                | Some (VStr _) => Card
                | _ => Thrown
                end
       end.

(** What a user can do on the rendered card. *)
Inductive Action : Type :=
  | ClickPrevious
  | ClickNext
  | ClickDot (index : nat)
  | TypeTitle (value : jsstring)
  | TypeSlide (field : Key) (value : jsstring)
  | ClickEditToggle.

(** Whether the card offers the action: the arrow buttons are disabled
    at the ends (lines 221 and 242), there is one dot per slide (line
    227), and the inputs exist in edit mode only (lines 146 and 181),
    for the two fields [title] and [content] (lines 185 and 190). *)
Definition offered (s : State) (a : Action) : bool :=
  match a with
  | ClickPrevious => negb (currentSlideIndex s =? 0)
  | ClickNext => negb (currentSlideIndex s =? slides_length s - 1)
  | ClickDot index => Z.of_nat index <? slides_length s
  | TypeTitle _ => isEditing s
  | TypeSlide field _ =>
      isEditing s && (Key_eqb field Ktitle || Key_eqb field Kcontent)
  | ClickEditToggle => true
  end.

(** The handler behind each action. *)
Definition handle (props : Props.t) (a : Action) (s : State)
  : State * list Event :=
  match a with
  | ClickPrevious => (goToPreviousSlide s, [])
  | ClickNext => (goToNextSlide s, [])
  | ClickDot index => (jumpTo (Z.of_nat index) s, [])
  | TypeTitle value => (setTitle value s, [])
  | TypeSlide field value => (updateSlideContent field value s, [])
  | ClickEditToggle => handleEditToggle props s
  end.

(** A run of handlers, with the calls they make. *)
Fixpoint run (props : Props.t) (acts : list Action) (s : State)
  : State * list Event :=
  match acts with
  | [] => (s, [])
  | a :: acts' =>
      let (s1, calls1) := handle props a s in
      let (s2, calls2) := run props acts' s1 in
      (s2, calls1 ++ calls2)
  end.

(** The states a mounted component goes through: it starts from the
    initial values of its cells; the effect runs after the first
    render, and again after each change of its dependencies; a handler
    runs when the card on the screen offers its action. *)
Inductive reachable : Props.t -> State -> Prop :=
  | reach_initial props uuid0 now0 :
      reachable props (initial props uuid0 now0)
  | reach_mount props uuid0 now0 uuid now :
      reachable props (rebuild props uuid now (initial props uuid0 now0))
  | reach_props old new uuid now s :
      reachable old s ->
      reachable new (props_change old new uuid now s)
  | reach_handle props a s :
      reachable props s ->
      render s = Card ->
      offered s a = true ->
      reachable props (fst (handle props a s)).

(* ===================================================================== *)
(** ** Download *)
(* ===================================================================== *)

(** A JSON document. *)
#[warnings="-register-all"]
Inductive JSON : Type :=
  | JNull
  | JString (s : jsstring)
  | JArray (items : list JSON)
  | JObject (members : list (jsstring * JSON)).

Definition Key_name (k : Key) : jsstring :=
  match k with
  | Ktitle => js "title"
  | Kcontent => js "content"
  | KimageUrl => js "imageUrl"
  | Kstyle => js "style"
  end.

Definition JSON_of_Val (v : Val) : JSON :=
  match v with
  | VStr s => JString s
  | VObj hints => JObject (List.map (fun h => (fst h, JString (snd h))) hints)
  end.

(** An object is written with its own properties in insertion order. *)
Definition JSON_of_slide (o : SlideContent) : JSON :=
  JObject (List.map (fun kv => (Key_name (fst kv), JSON_of_Val (snd kv))) o).

(** A hole of an array is written as [null]. *)
Definition JSON_of_element (x : option SlideContent) : JSON :=
  match x with
  | Some o => JSON_of_slide o
  | None => JNull
  end.

(** The document that [JSON.stringify(processedPresentation)] writes
    (line 80).  Its text, which line 80 then percent-encodes into the
    [href] of the anchor, spells out this tree. *)
Definition JSON_stringify (p : Presentation) : JSON :=
  JObject
    [ (js "id", JString (id p));
      (js "createdAt", JString (createdAt p));
      (js "title", JString (title p));
      (js "slides", JArray (List.map JSON_of_element (slides p))) ].

(** The characters matched by [\s]: the white space and line
    terminator code points of ECMAScript, all of one code unit. *)
Definition isWhiteSpace (c : char16) : bool :=
  (existsb (N.eqb c)
     [9; 10; 11; 12; 13; 32; 160; 5760; 8232; 8233; 8239; 8287; 12288;
      65279]
   || ((8192 <=? c) && (c <=? 8202)))%N.

Definition underscore : char16 := 95%N.

(** [s.replace(/\s+/g, '_')] (line 84): the greedy [\s+] matches at the
    first white space character and takes the whole run of them; the
    scan goes on after the match.  [after_match] is the scan while
    inside a match. *)
Fixpoint replace_whitespace (s : jsstring) : jsstring :=
  match s with
  | [] => []
  | c :: r =>
      if isWhiteSpace c then underscore :: after_match r
      else c :: replace_whitespace r
  end
with after_match (s : jsstring) : jsstring :=
  match s with
  | [] => []
  | c :: r =>
      if isWhiteSpace c then after_match r
      else c :: replace_whitespace r
  end.

(** The two attributes that [handleDownload] (lines 78-88) gives the
    anchor it clicks: the document behind [href] and the file name in
    [download]. *)
Record Anchor : Type := mkAnchor {
  href_document : JSON;
  download : jsstring
}.

Definition handleDownload (s : State) : Anchor :=
  {| href_document := JSON_stringify (processedPresentation s);
     download :=
       replace_whitespace (title (processedPresentation s)) ++ js ".json" |}.

(** *** The file name in the words of the specification *)

(** The maximal runs of a string: each is tagged with whether it is
    made of white space. *)
Fixpoint runs (s : jsstring) : list (bool * jsstring) :=
  match s with
  | [] => []
  | c :: r =>
      match runs r with
      | (w, run) :: rs =>
          if Bool.eqb w (isWhiteSpace c) then (w, c :: run) :: rs
          else (isWhiteSpace c, [c]) :: (w, run) :: rs
      | [] => [(isWhiteSpace c, [c])]
      end
  end.

(** "Every whitespace run replaced by a single underscore character". *)
Definition underscore_run (r : bool * jsstring) : jsstring :=
  if fst r then [underscore] else snd r.

Definition spec_filename (title : jsstring) : jsstring :=
  concat (List.map underscore_run (runs title)) ++ js ".json".

(* ===================================================================== *)
(** ** Views on a deck used in the statements *)
(* ===================================================================== *)

(** The value each slide of a deck has under a key, slide by slide. *)
Definition column (k : Key) (p : Presentation) : list (option Val) :=
  List.map (fun x => get k (spread x)) (slides p).

(** The index of the first occurrence of ["\n\n"] in a string, as
    [StringIndexOf] computes it. *)
Fixpoint indexOf_nn (s : jsstring) : option nat :=
  match s with
  | [] => None
  | c :: r =>
      match r with
      | d :: _ =>
          if (c =? LF)%N && (d =? LF)%N then Some 0%nat
          else option_map S (indexOf_nn r)
      | [] => None
      end
  end.

(** ["\n\n"] occurs in [s] at index [j]. *)
Definition occurs_nn (s : jsstring) (j : nat) : Prop :=
  s !! j = Some LF /\ s !! S j = Some LF.

(** A slide object with the four properties of the object literal of
    lines 49-54, in that order. *)
Definition full_slide (x : option SlideContent) : Prop :=
  exists o, x = Some o /\ List.map fst o = [Ktitle; Kcontent; KimageUrl; Kstyle].

(** The index points at a slide of the deck. *)
Definition in_bounds (s : State) : Prop :=
  0 <= currentSlideIndex s <= slides_length s - 1.

(** The [onSave] calls among the calls made. *)
Definition commits (calls : list Event) : list Presentation :=
  flat_map (fun e => match e with
                     | onSave_call p => [p]
                     | toast_call => []
                     end) calls.

(** *** Runs of white space *)

(** Neighbouring runs are of different kinds: each run is maximal. *)
Fixpoint alternating (rs : list (bool * jsstring)) : Prop :=
  match rs with
  | r1 :: (r2 :: _) as rs' => fst r1 <> fst r2 /\ alternating rs'
  | _ => True
  end.

(** A run is not empty and all its code units are of its kind. *)
Definition run_ok (r : bool * jsstring) : Prop :=
  snd r <> [] /\ Forall (fun c => isWhiteSpace c = fst r) (snd r).

(** What is left of the runs once a match of [\s+] has begun. *)
Definition rest_of_match (rs : list (bool * jsstring))
  : list (bool * jsstring) :=
  match rs with
  | (true, _) :: rs' => rs'
  | _ => rs
  end.

(* ===================================================================== *)
(** ** Sample texts, props and states *)
(* ===================================================================== *)

(** The example of the specification. *)
Definition example_text : jsstring :=
  js "Intro text" ++ [LF; LF] ++ js "Second point" ++ [LF; LF; LF]
  ++ js "Third point".

(** Two blank lines in a row: the empty block between them is dropped. *)
Definition gap_text : jsstring := js "a" ++ [LF; LF; LF; LF] ++ js "b".

(** Props with an [onSave], and the same without. *)
Definition with_onSave : Props.t :=
  Props.mk example_text (js "gemini-api") (js "Demo") true.

Definition without_onSave : Props.t :=
  Props.mk example_text (js "gemini-api") (js "Demo") false.

(** The example deck in view mode on its first slide. *)
Definition viewing : State :=
  {| currentSlideIndex := 0;
     isEditing := false;
     processedPresentation :=
       build example_text (js "Demo") (js "id-1") (js "t-1") |}.

(** A deck of three slides, shown in edit mode on its last slide. *)
Definition three_slides : State :=
  {| currentSlideIndex := 2;
     isEditing := true;
     processedPresentation :=
       build example_text (js "Demo") (js "id-1") (js "t-1") |}.

(** The props of a later render: a text of one block. *)
Definition one_block : Props.t :=
  Props.mk (js "Only one") (js "gemini-api") (js "Demo") true.

(** The session right after its first effect, on the example text. *)
Definition mounted : State :=
  rebuild with_onSave (js "id-1") (js "t-1")
    (initial with_onSave (js "id-0") (js "t-0")).

(* ===================================================================== *)
(** ** The rest of the card *)
(* ===================================================================== *)

(** [content.split('\n')] (line 198): one paragraph per line. *)
Fixpoint split_n (s : jsstring) : list jsstring :=
  match s with
  | [] => [[]]
  | c :: r =>
      if (c =? LF)%N then [] :: split_n r else cons_head c (split_n r)
  end.

(** The paragraphs the card shows outside of edit mode (lines
    197-201); [None] where reading [content.split] throws. *)
Definition paragraphs (slide : SlideContent) : option (list jsstring) :=
  match get Kcontent slide with
  | Some (VStr content) => Some (split_n content)
  | _ => None
  end.

(** The dots of lines 227-235: [true] for the dot drawn with
    [bg-primary], the one whose [index === currentSlideIndex].
    [Array.prototype.map] does not visit a hole, so that a hole gets
    no dot, while [index] counts the holes too. *)
Definition dots (s : State) : list bool :=
  omap (fun dot : option bool => dot)
       (mapi (fun (x : option SlideContent) index =>
                match x with
                | Some _ => Some (Z.of_nat index =? currentSlideIndex s)
                | None => None
                end)
             (slides (processedPresentation s))).

(** [style.name] on the object of hints: the value of the property, if
    the object has it. *)
Fixpoint hint (name : jsstring) (hints : list (jsstring * jsstring))
  : option jsstring :=
  match hints with
  | [] => None
  | (n, v) :: hints' =>
      if bool_decide (n = name) then Some v else hint name hints'
  end.

(** [x || fallback] for an optional string: [undefined] and the empty
    string are falsy. *)
Definition or_else (x : option jsstring) (fallback : jsstring) : jsstring :=
  match x with
  | Some v => if Boolean v then v else fallback
  | None => fallback
  end.

(** The truthy value of an optional string, if it is truthy. *)
Definition truthy (x : option jsstring) : option jsstring :=
  match x with
  | Some v => if Boolean v then Some v else None
  | None => None
  end.

(** [currentSlide.style || {}] (line 117), as far as its hints can be
    read: a string stored under [style] has none of the five
    properties that are read. *)
Definition style_hints (slide : SlideContent) : list (jsstring * jsstring) :=
  match get Kstyle slide with
  | Some (VObj hints) => hints
  | _ => []
  end.

(** The [inlineStyle] object of lines 118-133; a property that is not
    set is [None]. *)
Record CSSProperties : Type := mkCSS {
  textAlign : jsstring;
  color : jsstring;
  background : option jsstring;
  backgroundColor : option jsstring;
  fontSize : option jsstring
}.

(** Lines 116-134 on a slide. *)
Definition slide_styles (slide : SlideContent) : CSSProperties :=
  let style := style_hints slide in
  let gradient := truthy (hint (js "gradient") style) in
  {| textAlign := or_else (hint (js "alignment") style) (js "left");
     color := or_else (hint (js "textColor") style) (js "#333333");
     background := gradient;
     backgroundColor :=
       match gradient with
       | Some _ => None
       | None => truthy (hint (js "backgroundColor") style)
       end;
     fontSize :=
       if bool_decide (hint (js "fontSize") style = Some (js "large"))
       then Some (js "1.125rem") else None |}.

(** [getSlideStyles()], lines 116-134: reading [currentSlide.style]
    throws when there is no current slide; [None] stands for that. *)
Definition getSlideStyles (s : State) : option CSSProperties :=
  option_map slide_styles (currentSlide s).

(** Whether the image layer and the badge of lines 169-178 and 205-212
    are drawn: [currentSlide.imageUrl && ...]. *)
Definition image_shown (slide : SlideContent) : bool :=
  match get KimageUrl slide with
  | Some (VStr url) => Boolean url
  | Some (VObj _) => true
  | None => false
  end.

(** The number of slides of a state, as a [nat]. *)
Definition slide_count (s : State) : nat :=
  length (slides (processedPresentation s)).

(** The calls of [toast] among the calls made. *)
Definition toasts (calls : list Event) : nat :=
  length (List.filter (fun e => match e with
                                | toast_call => true
                                | onSave_call _ => false
                                end) calls).

(** The clicks on the edit button among the actions. *)
Definition toggles (acts : list Action) : nat :=
  length (List.filter (fun a => match a with
                                | ClickEditToggle => true
                                | _ => false
                                end) acts).

(** A slide as the effect makes it and as the two inputs of the card
    leave it: a title and a content that are strings, no image and no
    style hint. *)
Definition plain_slide (x : option SlideContent) : Prop :=
  exists t c,
    x = Some [ (Ktitle, VStr t); (Kcontent, VStr c);
               (KimageUrl, VStr []); (Kstyle, VObj []) ].

(** The keys of the current slide, in order; none where there is no
    current slide. *)
Definition current_keys (s : State) : list Key :=
  List.map fst (spread (currentSlide s)).

(** What [getSlideStyles] gives for a slide without style hints. *)
Definition default_styles : CSSProperties :=
  {| textAlign := js "left";
     color := js "#333333";
     background := None;
     backgroundColor := None;
     fontSize := None |}.

(* ===================================================================== *)
(** ** The text behind [href] *)
(* ===================================================================== *)

(** A hexadecimal digit, as a code unit: lower case for [\u] escapes,
    upper case for percent escapes. *)
Definition hex_digit (upper : bool) (n : N) : char16 :=
  (if n <? 10 then 48 + n else (if upper then 55 else 87) + n)%N.

Definition is_high_surrogate (c : char16) : bool :=
  ((55296 <=? c) && (c <=? 56319))%N.

Definition is_low_surrogate (c : char16) : bool :=
  ((56320 <=? c) && (c <=? 57343))%N.

(** [UnicodeEscape]: a backslash, [u] and four lower-case hexadecimal
    digits. *)
Definition UnicodeEscape (c : char16) : jsstring :=
  [92; 117;
   hex_digit false (c / 4096);
   hex_digit false ((c / 256) mod 16);
   hex_digit false ((c / 16) mod 16);
   hex_digit false (c mod 16)]%N.

(** What [QuoteJSONString] writes for one code point that is a single
    code unit: the short escapes of backspace, tab, newline, form
    feed, carriage return, the double quote and the backslash; a [\u]
    escape for the other control characters and for a surrogate on its
    own; the code unit itself otherwise. *)
Definition quote_unit (c : char16) : jsstring :=
  (if c =? 8 then [92; 98]
   else if c =? 9 then [92; 116]
   else if c =? 10 then [92; 110]
   else if c =? 12 then [92; 102]
   else if c =? 13 then [92; 114]
   else if c =? 34 then [92; 34]
   else if c =? 92 then [92; 92]
   else if (c <? 32) || is_high_surrogate c || is_low_surrogate c
        then UnicodeEscape c
   else [c])%N.

(** The inside of [QuoteJSONString]: the string is read code point by
    code point; a high surrogate followed by a low one is one code
    point, written as it is. *)
Fixpoint quote_units (s : jsstring) : jsstring :=
  match s with
  | [] => []
  | c :: r =>
      match r with
      | d :: r' =>
          if is_high_surrogate c && is_low_surrogate d
          then c :: d :: quote_units r'
          else quote_unit c ++ quote_units r
      | [] => quote_unit c
      end
  end.

Definition QuoteJSONString (s : jsstring) : jsstring :=
  [34%N] ++ quote_units s ++ [34%N].

(** The text [JSON.stringify] writes for a document, without
    indentation: members and items are separated by a comma, a key and
    its value by a colon. *)
Fixpoint JSON_text (j : JSON) : jsstring :=
  match j with
  | JNull => js "null"
  | JString s => QuoteJSONString s
  | JArray items => js "[" ++ join (js ",") (List.map JSON_text items) ++ js "]"
  | JObject members =>
      js "{"
      ++ join (js ",")
           (List.map (fun m => match m with
                               | (k, v) =>
                                   QuoteJSONString k ++ js ":" ++ JSON_text v
                               end) members)
      ++ js "}"
  end.

(** The characters [encodeURIComponent] leaves as they are: letters,
    digits and [- _ . ! ~ * ' ( )]. *)
Definition unreserved (c : char16) : bool :=
  (((65 <=? c) && (c <=? 90)) || ((97 <=? c) && (c <=? 122))
   || ((48 <=? c) && (c <=? 57))
   || existsb (N.eqb c) [45; 95; 46; 33; 126; 42; 39; 40; 41])%N.

(** The octets of the UTF-8 encoding of a code point. *)
Definition utf8 (cp : N) : list N :=
  (if cp <? 128 then [cp]
   else if cp <? 2048 then [192 + cp / 64; 128 + cp mod 64]
   else if cp <? 65536
        then [224 + cp / 4096; 128 + (cp / 64) mod 64; 128 + cp mod 64]
   else [240 + cp / 262144; 128 + (cp / 4096) mod 64;
         128 + (cp / 64) mod 64; 128 + cp mod 64])%N.

(** A percent sign and two upper-case hexadecimal digits per octet. *)
Definition percent_encode (octets : list N) : jsstring :=
  flat_map (fun o => [37; hex_digit true (o / 16); hex_digit true (o mod 16)]%N)
           octets.

(** The code point of a surrogate pair. *)
Definition pair_code_point (hi lo : char16) : N :=
  (65536 + (hi - 55296) * 1024 + (lo - 56320))%N.

(** [encodeURIComponent(s)]: [None] where it throws a [URIError], which
    it does on a surrogate that is not part of a pair. *)
Fixpoint encodeURIComponent (s : jsstring) : option jsstring :=
  match s with
  | [] => Some []
  | c :: r =>
      if unreserved c then option_map (cons c) (encodeURIComponent r)
      else if is_low_surrogate c then None
      else if is_high_surrogate c then
        match r with
        | d :: r' =>
            if is_low_surrogate d
            then option_map (app (percent_encode (utf8 (pair_code_point c d))))
                            (encodeURIComponent r')
            else None
        | [] => None
        end
      else option_map (app (percent_encode (utf8 c))) (encodeURIComponent r)
  end.

(** [dataStr], lines 79-80, the [href] of the anchor: [None] where
    [encodeURIComponent] throws. *)
Definition dataStr (s : State) : option jsstring :=
  option_map (app (js "data:text/json;charset=utf-8,"))
    (encodeURIComponent (JSON_text (JSON_stringify (processedPresentation s)))).

(** No surrogate stands on its own: every high one is followed by a
    low one, and every low one follows a high one. *)
Fixpoint well_formed (s : jsstring) : bool :=
  match s with
  | [] => true
  | c :: r =>
      if is_low_surrogate c then false
      else if is_high_surrogate c then
        match r with
        | d :: r' => is_low_surrogate d && well_formed r'
        | [] => false
        end
      else well_formed r
  end.

(** A unit that a text may hold anywhere: no control character, no
    surrogate. *)
Definition plain (c : char16) : Prop :=
  (32 <= c)%N /\ is_high_surrogate c = false /\ is_low_surrogate c = false.

(** What holds of every text written: no control character in it, no
    surrogate on its own. *)
Definition sound (t : jsstring) : Prop :=
  Forall (fun c => (32 <= c)%N) t /\ well_formed t = true.

(** A unit of an encoded component: an unreserved character, or the
    percent sign of an escape. *)
Definition escaped (c : char16) : Prop :=
  unreserved c = true \/ c = 37%N.

(** The text of the deck of a state, which line 80 encodes. *)
Definition deck_text (s : State) : jsstring :=
  JSON_text (JSON_stringify (processedPresentation s)).

(** The beginning of every [dataStr]. *)
Definition data_prefix : jsstring := js "data:text/json;charset=utf-8,".

(** How the blocks of a split look: the separator occurs in none of
    them, and none but the last ends with a newline (followed by a
    newline they still have no separator inside). *)
Fixpoint blocks_ok (bs : list jsstring) : Prop :=
  match bs with
  | [] => True
  | b :: bs' =>
      match bs' with
      | [] => forall i, ~ occurs_nn b i
      | _ :: _ => (forall i, ~ occurs_nn (b ++ [LF]) i) /\ blocks_ok bs'
      end
  end.

(** *** The exported text in the words of the specification *)

(** A member of an object: the quoted key, a colon, the value. *)
Definition member (key : string) (value : jsstring) : jsstring :=
  QuoteJSONString (js key) ++ js ":" ++ value.

(** "Objects with [title], [content], [imageUrl], [style]": the text
    of a slide with the given title and content, without an image and
    without style hints. *)
Definition spec_slide_text (t c : jsstring) : jsstring :=
  js "{"
  ++ join (js ",")
       [ member "title" (QuoteJSONString t);
         member "content" (QuoteJSONString c);
         member "imageUrl" (QuoteJSONString []);
         member "style" (js "{}") ]
  ++ js "}".

(** "A nested object with keys [id], [createdAt], [title], [slides]":
    the text of a deck, given the texts of its slides. *)
Definition spec_deck_text (p : Presentation) (slide_texts : list jsstring)
  : jsstring :=
  js "{"
  ++ join (js ",")
       [ member "id" (QuoteJSONString (id p));
         member "createdAt" (QuoteJSONString (createdAt p));
         member "title" (QuoteJSONString (title p));
         member "slides" (js "[" ++ join (js ",") slide_texts ++ js "]") ]
  ++ js "}".

(* ===================================================================== *)
(** ** Splitting *)
(* ===================================================================== *)

Section Splitting.

Implicit Types (s b : list N) (bs : list (list N)).

Lemma split_nn_cons2 c d s :
  split_nn (c :: d :: s) =
  if (c =? LF)%N && (d =? LF)%N then [] :: split_nn s
  else cons_head c (split_nn (d :: s)).
Proof. reflexivity. Qed.

Lemma split_nn_not_nil s : split_nn s <> [].
Proof.
  destruct s as [|c [|d s]]; try discriminate.
  rewrite split_nn_cons2.
  destruct ((c =? LF)%N && (d =? LF)%N); [discriminate|].
  unfold cons_head. destruct (split_nn (d :: s)); discriminate.
Qed.

Lemma join_cons_head sep c bs :
  bs <> [] -> join sep (cons_head c bs) = c :: join sep bs.
Proof. destruct bs as [|b [|b' bs]]; simpl; congruence. Qed.

(** Induction for functions that look at two elements at a time. *)
Lemma list_ind_pair {A : Type} (P : list A -> Prop) :
  P [] ->
  (forall x, P [x]) ->
  (forall x y l, P l -> P (y :: l) -> P (x :: y :: l)) ->
  forall l, P l.
Proof.
  intros Hnil Hone Hstep l.
  enough (P l /\ forall x, P (x :: l)) by tauto.
  induction l as [|y l [IH1 IH2]]; split; auto.
Qed.

Lemma join_cons sep b bs :
  bs <> [] -> join sep (b :: bs) = b ++ sep ++ join sep bs.
Proof. destruct bs; [congruence|reflexivity]. Qed.

(** Putting the separator back between the blocks gives the string
    back: nothing but separators is taken out. *)
Lemma join_split_nn s : join [LF; LF] (split_nn s) = s.
Proof.
  induction s as [| |c d s IH1 IH2] using list_ind_pair; try reflexivity.
  rewrite split_nn_cons2.
  destruct ((c =? LF)%N && (d =? LF)%N) eqn:E.
  - apply andb_true_iff in E as [Hc Hd].
    apply N.eqb_eq in Hc, Hd. subst c d.
    rewrite join_cons by apply split_nn_not_nil. now rewrite IH1.
  - rewrite join_cons_head by apply split_nn_not_nil. now rewrite IH2.
Qed.

Lemma indexOf_nn_cons2 c d s :
  indexOf_nn (c :: d :: s) =
  if (c =? LF)%N && (d =? LF)%N then Some 0%nat
  else option_map S (indexOf_nn (d :: s)).
Proof. reflexivity. Qed.

(** [indexOf_nn] finds an occurrence, and the first one. *)
Lemma indexOf_nn_Some s j :
  indexOf_nn s = Some j ->
  occurs_nn s j /\ forall i, (i < j)%nat -> ~ occurs_nn s i.
Proof.
  revert j. induction s as [|c r IH]; intros j; [intros [=]|].
  destruct r as [|d s]; [cbn; intros [=]|].
  rewrite indexOf_nn_cons2.
  destruct ((c =? LF)%N && (d =? LF)%N) eqn:E.
  - intros [= <-]. apply andb_true_iff in E as [Hc Hd].
    apply N.eqb_eq in Hc, Hd. subst c d.
    split; [split; reflexivity | intros i Hi; lia].
  - destruct (indexOf_nn (d :: s)) as [j'|] eqn:Ej; [|cbn; intros [=]].
    cbn [option_map]. intros [= <-].
    destruct (IH j' eq_refl) as [[H1 H2] Hmin].
    split; [split; assumption|].
    intros [|i] Hi [Hi1 Hi2].
    + cbn in Hi1, Hi2. injection Hi1 as ->. injection Hi2 as ->.
      discriminate E.
    + apply (Hmin i); [lia | split; assumption].
Qed.

Lemma indexOf_nn_None s : indexOf_nn s = None -> forall i, ~ occurs_nn s i.
Proof.
  induction s as [|c r IH]; intros Hn i [Hi1 Hi2]; [discriminate|].
  destruct r as [|d s]; [destruct i; discriminate|].
  rewrite indexOf_nn_cons2 in Hn.
  destruct ((c =? LF)%N && (d =? LF)%N) eqn:E; [discriminate|].
  destruct (indexOf_nn (d :: s)) eqn:Ej; [discriminate|].
  destruct i as [|i].
  - cbn in Hi1, Hi2. injection Hi1 as ->. injection Hi2 as ->.
    discriminate E.
  - apply (IH eq_refl i). split; assumption.
Qed.

(** [split_nn] follows the loop of [String.prototype.split]: the first
    block ends at the first occurrence of the separator, and the rest
    of the string, two units further, is split in the same way. *)
Lemma split_nn_indexOf s :
  split_nn s =
  match indexOf_nn s with
  | None => [s]
  | Some j => take j s :: split_nn (drop (j + 2) s)
  end.
Proof.
  induction s as [|c r IH]; [reflexivity|].
  destruct r as [|d s]; [reflexivity|].
  rewrite split_nn_cons2, indexOf_nn_cons2.
  destruct ((c =? LF)%N && (d =? LF)%N); [reflexivity|].
  rewrite IH. destruct (indexOf_nn (d :: s)) as [j|]; reflexivity.
Qed.

(** Only the empty block is dropped by [filter(Boolean)]. *)
Lemma filter_Boolean_nil bs :
  List.filter Boolean bs = [] <-> Forall (fun b => b = []) bs.
Proof.
  induction bs as [|b bs IH]; simpl.
  - split; [constructor|reflexivity].
  - destruct b as [|c b]; simpl.
    + rewrite IH. split; [now constructor | now inversion 1].
    + split; [discriminate | inversion 1; discriminate].
Qed.

Lemma join_nils bs :
  Forall (fun b => b = []) bs ->
  join [LF; LF] bs = replicate (2 * (length bs - 1)) LF.
Proof.
  induction 1 as [|b bs -> Hbs IH]; [reflexivity|].
  destruct bs as [|b' bs]; [reflexivity|].
  rewrite join_cons by discriminate. rewrite IH. simpl length.
  replace (2 * (S (S (length bs)) - 1))%nat
    with (S (S (2 * (S (length bs) - 1)))) by lia.
  reflexivity.
Qed.

Lemma split_nn_newlines m :
  split_nn (replicate (2 * m) LF) = replicate (S m) [].
Proof.
  induction m as [|m IH]; [reflexivity|].
  replace (2 * S m)%nat with (S (S (2 * m))) by lia.
  cbn [replicate]. rewrite split_nn_cons2, IH. reflexivity.
Qed.

Lemma filter_Boolean_replicate_nil n :
  List.filter Boolean (replicate n []) = [].
Proof. induction n; [reflexivity | assumption]. Qed.

End Splitting.

(* ===================================================================== *)
(** ** The deck builder *)
(* ===================================================================== *)

Section Builder.

Context {A B C : Type}.

Lemma map_mapi_from (g : B -> C) (f : A -> nat -> B) i (xs : list A) :
  List.map g (mapi_from f i xs) = mapi_from (fun x k => g (f x k)) i xs.
Proof.
  revert i. induction xs as [|x xs IH]; intros i; simpl; [|rewrite IH];
    reflexivity.
Qed.

Lemma mapi_from_ext (f f' : A -> nat -> B) i (xs : list A) :
  (forall x k, f x k = f' x k) -> mapi_from f i xs = mapi_from f' i xs.
Proof.
  intros Hf. revert i.
  induction xs as [|x xs IH]; intros i; simpl; [|rewrite Hf, IH];
    reflexivity.
Qed.

Lemma mapi_from_elements (h : A -> B) i (xs : list A) :
  mapi_from (fun x _ => h x) i xs = List.map h xs.
Proof.
  revert i. induction xs as [|x xs IH]; intros i; simpl; [|rewrite IH];
    reflexivity.
Qed.

Lemma mapi_from_indices (h : nat -> B) i (xs : list A) :
  mapi_from (fun _ k => h k) i xs = List.map h (seq i (length xs)).
Proof.
  revert i. induction xs as [|x xs IH]; intros i; simpl; [|rewrite IH];
    reflexivity.
Qed.

Lemma length_mapi_from (f : A -> nat -> B) i (xs : list A) :
  length (mapi_from f i xs) = length xs.
Proof.
  revert i. induction xs as [|x xs IH]; intros i; simpl; [|rewrite IH];
    reflexivity.
Qed.

End Builder.

(** [filter(Boolean)] keeps the blocks that are not the empty string. *)
Lemma filter_Boolean (bs : list (list N)) :
  List.filter Boolean bs = filter (fun b => b <> []) bs.
Proof.
  induction bs as [|b bs IH]; [reflexivity|].
  rewrite filter_cons. destruct b as [|c b]; cbn [List.filter Boolean].
  - rewrite decide_False by (intros H; now apply H). exact IH.
  - rewrite decide_True by discriminate. now rewrite IH.
Qed.

Lemma column_build_content rawText title uuid now :
  column Kcontent (build rawText title uuid now) =
  List.map (fun b => Some (VStr b)) (List.filter Boolean (split_nn rawText)).
Proof.
  unfold column, build, derive_slides, mapi. simpl slides.
  rewrite map_mapi_from.
  rewrite (mapi_from_ext _ (fun b _ => Some (VStr b))) by reflexivity.
  apply mapi_from_elements.
Qed.

Lemma column_build_title rawText title uuid now :
  column Ktitle (build rawText title uuid now) =
  List.map (fun k => Some (VStr (js "Slide " ++ Number_toString (k + 1))))
           (seq 0 (length (List.filter Boolean (split_nn rawText)))).
Proof.
  unfold column, build, derive_slides, mapi. simpl slides.
  rewrite map_mapi_from.
  rewrite (mapi_from_ext _
             (fun _ k => Some (VStr (js "Slide " ++ Number_toString (k + 1)))))
    by reflexivity.
  apply mapi_from_indices.
Qed.

Lemma derive_slides_nil rawText :
  derive_slides rawText = [] <->
  exists m : nat, rawText = replicate (2 * m) LF.
Proof.
  unfold derive_slides, mapi. split.
  - intros H. apply (f_equal length) in H.
    rewrite length_mapi_from in H. apply length_zero_iff_nil in H.
    apply filter_Boolean_nil in H.
    exists (length (split_nn rawText) - 1)%nat.
    rewrite <- (join_split_nn rawText) at 1. now apply join_nils.
  - intros [m ->].
    rewrite split_nn_newlines, filter_Boolean_replicate_nil. reflexivity.
Qed.

(** C1 (as amended): [build] cuts [rawText] at each occurrence of the
    two-character string ["\n\n"], found from left to right without
    overlap: the first block ends at the first occurrence, if there is
    one, and the rest is cut in the same way two characters further;
    the blocks joined with ["\n\n"] give [rawText] back.  It drops
    exactly the blocks that are the empty string and stores each other
    block verbatim as the content of a slide, in order.  The example
    text gives three slides with contents "Intro text", "Second point"
    and "\nThird point"; a text gives no slide exactly when it is made
    of an even number of newline characters, the empty text being one
    such. *)
Theorem build_cuts_at_double_newlines (rawText title uuid now : jsstring) :
  let blocks := split_nn rawText in
  blocks = match indexOf_nn rawText with
           | None => [rawText]
           | Some j => take j rawText :: split_nn (drop (j + 2) rawText)
           end
  /\ (forall j, indexOf_nn rawText = Some j ->
        occurs_nn rawText j
        /\ forall i, (i < j)%nat -> ~ occurs_nn rawText i)
  /\ (indexOf_nn rawText = None -> forall i, ~ occurs_nn rawText i)
  /\ join [LF; LF] blocks = rawText
  /\ column Kcontent (build rawText title uuid now) =
     List.map (fun b => Some (VStr b)) (filter (fun b => b <> []) blocks)
  /\ (slides (build rawText title uuid now) = [] <->
      exists m : nat, rawText = replicate (2 * m) LF)
  /\ slides (build [] title uuid now) = []
  /\ column Kcontent (build example_text (js "Demo") uuid now) =
     [ Some (VStr (js "Intro text"));
       Some (VStr (js "Second point"));
       Some (VStr (LF :: js "Third point")) ].
Proof.
  cbv zeta.
  split; [apply split_nn_indexOf|].
  split; [intros j; apply indexOf_nn_Some|].
  split; [apply indexOf_nn_None|].
  split; [apply join_split_nn|].
  split; [rewrite <- filter_Boolean; apply column_build_content|].
  split; [apply derive_slides_nil|].
  split; reflexivity.
Qed.

(** In the example the first separator is found at index 10, right
    after "Intro text". *)
Lemma build_cuts_at_double_newlines_witness :
  indexOf_nn example_text = Some 10%nat
  /\ occurs_nn example_text 10
  /\ split_nn example_text =
     [js "Intro text"; js "Second point"; LF :: js "Third point"].
Proof.
  assert (Hj : indexOf_nn example_text = Some 10%nat) by reflexivity.
  pose proof (build_cuts_at_double_newlines example_text (js "Demo")
                (js "id") (js "now")) as H.
  cbv zeta in H.
  split; [exact Hj|].
  split; [exact (proj1 (proj1 (proj2 H) 10%nat Hj)) | reflexivity].
Defined.

(** C1 (as stated) fails on the example of the specification: the
    third block keeps the newline left over from the run of three, so
    the content of the third slide is not "Third point"; and a text of
    one space, which is white space only, gives a slide. *)
Lemma build_example_keeps_newline :
  column Kcontent (build example_text (js "Demo") (js "id") (js "now")) <>
    [ Some (VStr (js "Intro text"));
      Some (VStr (js "Second point"));
      Some (VStr (js "Third point")) ]
  /\ slides (build (js " ") (js "Demo") (js "id") (js "now")) <> [].
Proof. split; vm_compute; discriminate. Qed.

(** C8: the slides made by [build] are titled "Slide 1", "Slide 2",
    ... by their position among the blocks that are kept: there are as
    many slides as kept blocks and the slide at position [k], counted
    from 0, is titled "Slide " followed by the decimal numeral of
    [k + 1].  In ["a\n\n\n\nb"] the block "b" is third of the split and
    second of the kept ones: its slide is "Slide 2". *)
Theorem build_titles_by_kept_position (rawText title uuid now : jsstring) :
  let kept := filter (fun b => b <> []) (split_nn rawText) in
  length (slides (build rawText title uuid now)) = length kept
  /\ column Ktitle (build rawText title uuid now) =
     List.map (fun k => Some (VStr (js "Slide " ++ Number_toString (k + 1))))
              (seq 0 (length kept))
  /\ split_nn gap_text = [js "a"; []; js "b"]
  /\ column Ktitle (build gap_text title uuid now) =
     [Some (VStr (js "Slide 1")); Some (VStr (js "Slide 2"))]
  /\ column Kcontent (build gap_text title uuid now) =
     [Some (VStr (js "a")); Some (VStr (js "b"))].
Proof.
  cbv zeta. rewrite <- filter_Boolean. repeat split.
  - unfold build, derive_slides, mapi. simpl slides.
    apply length_mapi_from.
  - apply column_build_title.
Qed.

(** C9: the deck stored by the effect, like the one the state starts
    with, carries the [title] property of the props, whatever the text
    and the source are; the value of [defaultTitle] is not used, also
    when it differs from the title, as it does for the source
    "notes.txt" and the title "Demo". *)
Theorem stored_title_is_title_prop
    (result source title' uuid now : jsstring) (onSave : bool) (s : State) :
  let props := Props.mk result source title' onSave in
  let props' := Props.mk result (js "notes.txt") (js "Demo") onSave in
  title (build result title' uuid now) = title'
  /\ title (processedPresentation (rebuild props uuid now s)) = title'
  /\ title (processedPresentation (initial props uuid now)) = title'
  /\ defaultTitle props' = js "notes.txt"
  /\ title (processedPresentation (rebuild props' uuid now s)) = js "Demo".
Proof. repeat split. Qed.

(* ===================================================================== *)
(** ** Navigation *)
(* ===================================================================== *)

(** The sample state [three_slides] is one a session gets to: mount on
    the example text, go to the next slide twice, enter edit mode. *)
Lemma three_slides_reachable (onSave : bool) :
  reachable (Props.mk example_text (js "gemini-api") (js "Demo") onSave)
            three_slides.
Proof.
  set (props := Props.mk example_text (js "gemini-api") (js "Demo") onSave).
  set (s0 := rebuild props (js "id-1") (js "t-1")
               (initial props (js "id-0") (js "t-0"))).
  change three_slides
    with (fst (handle props ClickEditToggle
            (fst (handle props ClickNext
               (fst (handle props ClickNext s0)))))).
  repeat (apply reach_handle; [|reflexivity|reflexivity]).
  apply reach_mount.
Qed.

(** What the effect does to a state: it replaces the deck as a whole by
    the one [build] makes from the props, whatever the deck held
    before (edits made on it are gone), and writes neither
    [currentSlideIndex] nor the edit-mode flag. *)
Theorem rebuild_replaces_deck_only
    (props : Props.t) (uuid now : jsstring) (s s' : State) :
  processedPresentation (rebuild props uuid now s) =
    build (Props.result props) (Props.title props) uuid now
  /\ processedPresentation (rebuild props uuid now s') =
     processedPresentation (rebuild props uuid now s)
  /\ currentSlideIndex (rebuild props uuid now s) = currentSlideIndex s
  /\ isEditing (rebuild props uuid now s) = isEditing s.
Proof. repeat split. Qed.

(** C2: a rebuild is to reset [currentSlideIndex] to 0 and to turn edit
    mode off.  The effect does neither: when the text changes to one
    of a single block while the third slide is shown in edit mode, a
    state that a session gets to, the new state has the index at 2,
    past the only slide of the new deck, and edit mode on; the next
    render finds no current slide and throws at line 117, where the
    guards of lines 69, 74, 136 and 227 all keep a current slide. *)
Lemma rebuild_keeps_index_and_mode :
  let s := props_change with_onSave one_block (js "id-2") (js "t-2")
             three_slides in
  reachable one_block s
  /\ s = rebuild one_block (js "id-2") (js "t-2") three_slides
  /\ currentSlideIndex s <> 0
  /\ isEditing s <> false
  /\ slides_length s = 1
  /\ render s = Thrown.
Proof.
  cbv zeta. split.
  - apply reach_props. apply three_slides_reachable.
  - repeat split; discriminate.
Qed.

(** C3 (as amended): [jumpTo] stores the index it is given, as it is,
    and touches nothing else; the result is in bounds exactly when the
    index given is, which is the case for the index of every dot the
    card shows. *)
Theorem jumpTo_stores_index (index : Z) (s : State) :
  currentSlideIndex (jumpTo index s) = index
  /\ isEditing (jumpTo index s) = isEditing s
  /\ processedPresentation (jumpTo index s) = processedPresentation s
  /\ (in_bounds (jumpTo index s) <-> 0 <= index <= slides_length s - 1)
  /\ (forall (props : Props.t) (k : nat),
        offered s (ClickDot k) = true ->
        in_bounds (fst (handle props (ClickDot k) s))).
Proof.
  assert (Hb : in_bounds (jumpTo index s) <->
               0 <= index <= slides_length s - 1) by reflexivity.
  split; [reflexivity|]. split; [reflexivity|]. split; [reflexivity|].
  split; [exact Hb|].
  intros props k Hoff. cbn [offered] in Hoff. apply Z.ltb_lt in Hoff.
  cbn [handle fst]. unfold in_bounds, slides_length in *.
  cbn [jumpTo currentSlideIndex processedPresentation]. lia.
Qed.

Lemma jumpTo_stores_index_witness :
  offered three_slides (ClickDot 1) = true
  /\ in_bounds (fst (handle one_block (ClickDot 1) three_slides)).
Proof.
  split; [reflexivity|].
  apply (jumpTo_stores_index 1 three_slides). reflexivity.
Defined.

(** C3 (as stated) fails: on a deck of three slides [jumpTo 7] leaves
    the index at 7, out of bounds; the value is neither clamped nor
    ignored. *)
Lemma jumpTo_out_of_range :
  currentSlideIndex (jumpTo 7 three_slides) = 7
  /\ slides_length (jumpTo 7 three_slides) = 3
  /\ ~ in_bounds (jumpTo 7 three_slides).
Proof.
  repeat split. unfold in_bounds.
  change (slides_length (jumpTo 7 three_slides)) with 3.
  simpl. lia.
Qed.

(** C4: on a deck with slides and an index in bounds,
    [goToPreviousSlide] and [goToNextSlide] move the index by one
    towards the end they aim at and stop there: the index goes to
    [max 0 (i - 1)], respectively to [min (n - 1) (i + 1)]; at the
    first, respectively last, slide the state is left as it is, so
    that doing it again changes nothing; the index stays in bounds. *)
Theorem navigation_is_clamped (s : State) :
  0 < slides_length s ->
  in_bounds s ->
  let i := currentSlideIndex s in
  let n := slides_length s in
  currentSlideIndex (goToPreviousSlide s) = Z.max 0 (i - 1)
  /\ currentSlideIndex (goToNextSlide s) = Z.min (n - 1) (i + 1)
  /\ (i = 0 -> goToPreviousSlide s = s)
  /\ (i = n - 1 -> goToNextSlide s = s)
  /\ (i = 0 ->
      goToPreviousSlide (goToPreviousSlide s) = goToPreviousSlide s)
  /\ (i = n - 1 -> goToNextSlide (goToNextSlide s) = goToNextSlide s)
  /\ in_bounds (goToPreviousSlide s)
  /\ in_bounds (goToNextSlide s).
Proof.
  intros Hn Hb. destruct s as [i e p].
  unfold in_bounds, slides_length in *.
  cbn [currentSlideIndex processedPresentation] in *.
  set (n := Z.of_nat (length (slides p))) in *.
  assert (Hprev : goToPreviousSlide (mkState i e p) =
                  mkState (Z.max 0 (i - 1)) e p).
  { unfold goToPreviousSlide. cbn [currentSlideIndex isEditing
                                   processedPresentation].
    f_equal. destruct (Z.ltb_spec 0 i); lia. }
  assert (Hnext : goToNextSlide (mkState i e p) =
                  mkState (Z.min (n - 1) (i + 1)) e p).
  { unfold goToNextSlide, slides_length.
    cbn [currentSlideIndex isEditing processedPresentation].
    f_equal. fold n. destruct (Z.ltb_spec i (n - 1)); lia. }
  assert (Hprev0 : i = 0 -> goToPreviousSlide (mkState i e p) = mkState i e p).
  { intros Hi. rewrite Hprev. f_equal. lia. }
  assert (Hnext0 : i = n - 1 -> goToNextSlide (mkState i e p) = mkState i e p).
  { intros Hi. rewrite Hnext. f_equal. lia. }
  split; [now rewrite Hprev|]. split; [now rewrite Hnext|].
  split; [exact Hprev0|]. split; [exact Hnext0|].
  split; [intros Hi; now rewrite !Hprev0|].
  split; [intros Hi; now rewrite !Hnext0|].
  rewrite Hprev, Hnext. cbn [currentSlideIndex processedPresentation].
  fold n. lia.
Qed.

Lemma navigation_is_clamped_witness :
  0 < slides_length three_slides
  /\ in_bounds three_slides
  /\ currentSlideIndex (goToPreviousSlide three_slides) = 1
  /\ goToNextSlide three_slides = three_slides.
Proof.
  assert (Hn : 0 < slides_length three_slides) by reflexivity.
  assert (Hb : in_bounds three_slides) by (split; discriminate).
  pose proof (navigation_is_clamped three_slides Hn Hb) as H.
  cbv zeta in H.
  split; [exact Hn|]. split; [exact Hb|].
  split; [exact (proj1 H)|].
  exact (proj1 (proj2 (proj2 (proj2 H))) eq_refl).
Defined.

(** C10: [goToPreviousSlide] and [goToNextSlide] leave the deck as it
    is, with its [id], [createdAt], [title] and [slides], and leave the
    edit-mode flag as it is: only [currentSlideIndex] may change. *)
Theorem navigation_keeps_deck_and_mode (s : State) :
  processedPresentation (goToPreviousSlide s) = processedPresentation s
  /\ isEditing (goToPreviousSlide s) = isEditing s
  /\ processedPresentation (goToNextSlide s) = processedPresentation s
  /\ isEditing (goToNextSlide s) = isEditing s.
Proof. repeat split. Qed.

(* ===================================================================== *)
(** ** Editing a slide *)
(* ===================================================================== *)

Lemma Key_eqb_eq (a b : Key) : Key_eqb a b = true <-> a = b.
Proof. destruct a, b; simpl; split; congruence. Qed.

Lemma Key_eqb_refl (a : Key) : Key_eqb a a = true.
Proof. now apply Key_eqb_eq. Qed.

Lemma Key_eqb_neq (a b : Key) : Key_eqb a b = false <-> a <> b.
Proof. destruct a, b; simpl; split; congruence. Qed.

Lemma get_set_eq k v o : get k (set k v o) = Some v.
Proof.
  induction o as [|[k' v'] o IH]; simpl.
  - now rewrite Key_eqb_refl.
  - destruct (Key_eqb k k') eqn:E; simpl.
    + now rewrite Key_eqb_refl.
    + now rewrite E.
Qed.

Lemma get_set_ne k k' v o : k' <> k -> get k' (set k v o) = get k' o.
Proof.
  intros Hne. induction o as [|[k0 v0] o IH]; simpl.
  - apply Key_eqb_neq in Hne. now rewrite Hne.
  - destruct (Key_eqb k k0) eqn:E; simpl.
    + apply Key_eqb_eq in E. subst k0.
      apply Key_eqb_neq in Hne. now rewrite Hne.
    + now rewrite IH.
Qed.

(** Writing a property the object has keeps the order of its keys. *)
Lemma keys_set k v o :
  In k (List.map fst o) -> List.map fst (set k v o) = List.map fst o.
Proof.
  induction o as [|[k0 v0] o IH]; simpl; [tauto|].
  intros Hin. destruct (Key_eqb k k0) eqn:E; simpl.
  - apply Key_eqb_eq in E. now subst k0.
  - f_equal. apply IH. destruct Hin as [->|Hin]; [|exact Hin].
    now rewrite Key_eqb_refl in E.
Qed.

Lemma array_get_lookup {A : Type} (xs : list (option A)) (i : Z) x :
  0 <= i -> xs !! Z.to_nat i = Some x -> array_get xs i = x.
Proof.
  intros Hi Hx. unfold array_get.
  destruct (Z.ltb_spec i 0); [lia|]. now rewrite Hx.
Qed.

Lemma array_set_inside {A : Type} (xs : list (option A)) (i : Z) (x : A) :
  0 <= i < Z.of_nat (length xs) ->
  array_set xs i x = <[Z.to_nat i := Some x]> xs.
Proof.
  intros Hi. unfold array_set.
  destruct (Z.ltb_spec i 0); [lia|].
  destruct (Z.ltb_spec i (Z.of_nat (length xs))); [reflexivity | lia].
Qed.

(** C5: with the index in bounds, [updateSlideContent field value]
    puts [value] under [field] in the slide at [currentSlideIndex];
    every other property reads as it did in the element that [slides]
    held at that index before and, that element having the property
    already, its keys keep their order; every other element of
    [slides] is as before, as are the number of slides, the [id],
    [createdAt] and [title] of the deck, the index and the edit-mode
    flag; and the new deck is the same whether edit mode is on or
    off. *)
Theorem updateSlideContent_changes_one_field
    (field : Key) (value : jsstring) (s : State) :
  in_bounds s ->
  let s' := updateSlideContent field value s in
  let old := slides (processedPresentation s) in
  let new := slides (processedPresentation s') in
  let i := Z.to_nat (currentSlideIndex s) in
  (exists x o',
      old !! i = Some x
      /\ new !! i = Some (Some o')
      /\ get field o' = Some (VStr value)
      /\ (forall k, k <> field -> get k o' = get k (spread x))
      /\ (In field (List.map fst (spread x)) ->
          List.map fst o' = List.map fst (spread x)))
  /\ (forall j, j <> i -> new !! j = old !! j)
  /\ length new = length old
  /\ id (processedPresentation s') = id (processedPresentation s)
  /\ createdAt (processedPresentation s') = createdAt (processedPresentation s)
  /\ title (processedPresentation s') = title (processedPresentation s)
  /\ currentSlideIndex s' = currentSlideIndex s
  /\ isEditing s' = isEditing s
  /\ (forall mode : bool,
        processedPresentation
          (updateSlideContent field value
             (mkState (currentSlideIndex s) mode (processedPresentation s)))
        = processedPresentation s').
Proof.
  intros [Hlo Hhi]. unfold slides_length in Hhi.
  cbv zeta. unfold updateSlideContent.
  cbn [processedPresentation slides id createdAt title currentSlideIndex
       isEditing].
  set (xs := slides (processedPresentation s)) in *.
  set (i := currentSlideIndex s) in *.
  assert (Hlt : (Z.to_nat i < length xs)%nat) by lia.
  destruct (lookup_lt_is_Some_2 xs (Z.to_nat i) Hlt) as [x Hx].
  rewrite array_set_inside by lia.
  rewrite (array_get_lookup xs i x Hlo Hx).
  repeat split.
  - exists x. eexists. split; [exact Hx|].
    split; [apply list_lookup_insert_eq; exact Hlt|].
    split; [apply get_set_eq|].
    split; [intros k Hk; now apply get_set_ne | apply keys_set].
  - intros j Hj. apply list_lookup_insert_ne. congruence.
  - apply length_insert.
Qed.

(** The first slide of the example deck gets a new content: the slide
    keeps its title, its empty [imageUrl] and its empty [style], and
    the other two slides are as they were. *)
Lemma updateSlideContent_changes_one_field_witness :
  let s := jumpTo 0 three_slides in
  let s' := updateSlideContent Kcontent (js "Hello") s in
  in_bounds s
  /\ (exists o',
        slides (processedPresentation s') !! 0%nat = Some (Some o')
        /\ get Kcontent o' = Some (VStr (js "Hello"))
        /\ get Ktitle o' = Some (VStr (js "Slide 1"))
        /\ get KimageUrl o' = Some (VStr [])
        /\ get Kstyle o' = Some (VObj []))
  /\ slides (processedPresentation s') !! 1%nat =
     slides (processedPresentation s) !! 1%nat
  /\ slides (processedPresentation s') !! 2%nat =
     slides (processedPresentation s) !! 2%nat
  /\ column Ktitle (processedPresentation s') =
     [ Some (VStr (js "Slide 1"));
       Some (VStr (js "Slide 2"));
       Some (VStr (js "Slide 3")) ]
  /\ column Kcontent (processedPresentation s') =
     [ Some (VStr (js "Hello"));
       Some (VStr (js "Second point"));
       Some (VStr (LF :: js "Third point")) ].
Proof.
  cbv zeta.
  assert (Hb : in_bounds (jumpTo 0 three_slides)) by (split; discriminate).
  destruct (updateSlideContent_changes_one_field Kcontent (js "Hello")
              (jumpTo 0 three_slides) Hb)
    as ((x & o' & Hold & Hnew & Hfield & Hframe & _) & Hothers & _).
  cbv zeta in Hold, Hnew, Hothers.
  change (Z.to_nat (currentSlideIndex (jumpTo 0 three_slides)))
    with 0%nat in Hold, Hnew, Hothers.
  injection Hold as <-.
  split; [exact Hb|]. split.
  - exists o'. split; [exact Hnew|]. split; [exact Hfield|].
    split; [exact (Hframe Ktitle ltac:(discriminate))|].
    split; [exact (Hframe KimageUrl ltac:(discriminate))
           | exact (Hframe Kstyle ltac:(discriminate))].
  - split; [apply Hothers; discriminate|].
    split; [apply Hothers; discriminate|].
    split; reflexivity.
Defined.

(* ===================================================================== *)
(** ** Edit mode *)
(* ===================================================================== *)

Lemma run_app props acts1 acts2 s :
  run props (acts1 ++ acts2) s =
  let (s1, calls1) := run props acts1 s in
  let (s2, calls2) := run props acts2 s1 in
  (s2, calls1 ++ calls2).
Proof.
  revert s. induction acts1 as [|a acts1 IH]; intros s; simpl.
  - now destruct (run props acts2 s).
  - destruct (handle props a s) as [s1 calls1].
    rewrite IH. destruct (run props acts1 s1) as [s2 calls2].
    destruct (run props acts2 s2) as [s3 calls3].
    now rewrite app_assoc.
Qed.

(** Handlers other than the edit toggle call nothing outside and keep
    the edit-mode flag. *)
Lemma handle_quiet props a s :
  a <> ClickEditToggle ->
  snd (handle props a s) = []
  /\ isEditing (fst (handle props a s)) = isEditing s.
Proof. destruct a; simpl; intros H; try congruence; split; reflexivity. Qed.

Lemma run_quiet props acts s :
  Forall (fun a => a <> ClickEditToggle) acts ->
  snd (run props acts s) = []
  /\ isEditing (fst (run props acts s)) = isEditing s.
Proof.
  intros Hacts. revert s.
  induction Hacts as [|a acts Ha Hacts IH]; intros s; simpl; [easy|].
  destruct (handle_quiet props a s Ha) as [Hc Hm].
  destruct (handle props a s) as [s1 calls1]. simpl in Hc, Hm. subst calls1.
  destruct (IH s1) as [Hc' Hm'].
  destruct (run props acts s1) as [s2 calls2]. simpl in *.
  split; congruence.
Qed.

(** C6 (as amended): outside of edit mode [handleEditToggle] turns edit
    mode on, calls nothing and changes no data.  In edit mode it turns
    edit mode off, changes no data, and calls [onSave] once with the
    current deck when the props have an [onSave], and not at all when
    they have none.  So toggling twice from view mode, with any edits
    in between, calls [onSave] once when there is one, with the deck as
    edited, and leaves the session in view mode. *)
Theorem handleEditToggle_commits_through_onSave
    (props : Props.t) (s : State) (edits : list Action) :
  Forall (fun a => a <> ClickEditToggle) edits ->
  (isEditing s = false ->
     handleEditToggle props s =
       (mkState (currentSlideIndex s) true (processedPresentation s), []))
  /\ (isEditing s = true ->
        fst (handleEditToggle props s) =
          mkState (currentSlideIndex s) false (processedPresentation s)
        /\ commits (snd (handleEditToggle props s)) =
           if Props.onSave props then [processedPresentation s] else [])
  /\ (isEditing s = false ->
        let edited :=
          fst (run props edits (fst (handleEditToggle props s))) in
        let final :=
          run props (ClickEditToggle :: edits ++ [ClickEditToggle]) s in
        isEditing (fst final) = false
        /\ processedPresentation (fst final) = processedPresentation edited
        /\ commits (snd final) =
           if Props.onSave props
           then [processedPresentation edited] else []).
Proof.
  intros Hedits. split; [|split].
  - intros Hv. unfold handleEditToggle. now rewrite Hv.
  - intros He. unfold handleEditToggle. rewrite He. simpl.
    split; [reflexivity|]. now destruct (Props.onSave props).
  - intros Hv. cbv zeta.
    set (s1 := mkState (currentSlideIndex s) true (processedPresentation s)).
    assert (Ht : handleEditToggle props s = (s1, []))
      by (unfold handleEditToggle; now rewrite Hv).
    change (run props (ClickEditToggle :: edits ++ [ClickEditToggle]) s)
      with (let (s1, calls1) := handleEditToggle props s in
            let (s2, calls2) :=
              run props (edits ++ [ClickEditToggle]) s1 in
            (s2, calls1 ++ calls2)).
    rewrite Ht. cbn [fst]. rewrite run_app.
    destruct (run_quiet props edits s1 Hedits) as [Hc Hm].
    destruct (run props edits s1) as [s2 calls2].
    cbn [fst snd] in *. subst calls2.
    change (isEditing s1) with true in Hm.
    cbn [run handle]. unfold handleEditToggle. rewrite Hm.
    destruct (Props.onSave props); repeat split.
Qed.

(** Enter edit mode, retitle the first slide, leave edit mode: one
    call of [onSave], and the deck it gets has the new title. *)
Lemma handleEditToggle_commits_through_onSave_witness :
  let edits := [TypeSlide Ktitle (js "Welcome")] in
  let final :=
    run with_onSave (ClickEditToggle :: edits ++ [ClickEditToggle]) viewing in
  Forall (fun a => a <> ClickEditToggle) edits
  /\ isEditing viewing = false
  /\ length (commits (snd final)) = 1%nat
  /\ List.map (column Ktitle) (commits (snd final)) =
     [[ Some (VStr (js "Welcome"));
        Some (VStr (js "Slide 2"));
        Some (VStr (js "Slide 3")) ]].
Proof.
  cbv zeta.
  assert (He : Forall (fun a => a <> ClickEditToggle)
                      [TypeSlide Ktitle (js "Welcome")])
    by (constructor; [discriminate | constructor]).
  split; [exact He|]. split; [reflexivity|].
  destruct (handleEditToggle_commits_through_onSave with_onSave viewing
              [TypeSlide Ktitle (js "Welcome")] He)
    as (_ & _ & H).
  destruct (H eq_refl) as (_ & _ & Hc).
  rewrite Hc. split; reflexivity.
Defined.

(** C6 (as stated) fails when the props have no [onSave] (the property
    is optional, line 19, and line 92 tests it): leaving edit mode then
    calls nothing, and two toggles from view mode make no commit. *)
Lemma toggle_without_onSave_commits_nothing :
  reachable without_onSave three_slides
  /\ isEditing three_slides = true
  /\ isEditing (fst (handleEditToggle without_onSave three_slides)) = false
  /\ commits (snd (handleEditToggle without_onSave three_slides)) = []
  /\ length (commits (snd (run without_onSave
                             [ClickEditToggle; ClickEditToggle] viewing)))
     <> 1%nat.
Proof.
  split; [apply three_slides_reachable|].
  repeat split. discriminate.
Qed.

(* ===================================================================== *)
(** ** Download *)
(* ===================================================================== *)

Section Runs.

Implicit Types (s run : list N) (rs : list (bool * list N)).

Lemma runs_cons c s :
  runs (c :: s) =
  match runs s with
  | (w, run) :: rs =>
      if Bool.eqb w (isWhiteSpace c) then (w, c :: run) :: rs
      else (isWhiteSpace c, [c]) :: (w, run) :: rs
  | [] => [(isWhiteSpace c, [c])]
  end.
Proof. reflexivity. Qed.

(** [runs] cuts the string into its maximal runs. *)
Lemma runs_spec s :
  concat (List.map snd (runs s)) = s
  /\ Forall run_ok (runs s)
  /\ alternating (runs s).
Proof.
  induction s as [|c s (Hcat & Hok & Halt)]; [repeat constructor|].
  rewrite runs_cons. destruct (runs s) as [|[w run] rs].
  - simpl in Hcat. subst s. repeat constructor; simpl; congruence.
  - pose proof Hok as Hok0.
    apply Forall_cons in Hok0 as [[Hne Hall] Hok'].
    destruct (Bool.eqb w (isWhiteSpace c)) eqn:E.
    + apply eqb_prop in E. simpl in *. split; [now rewrite Hcat|].
      split; [|exact Halt].
      constructor; [|exact Hok'].
      split; simpl; [discriminate | now constructor].
    + apply eqb_false_iff in E. simpl in *. split; [now rewrite Hcat|].
      split; [|split; [congruence | exact Halt]].
      constructor; [|exact Hok].
      split; simpl; [discriminate | now repeat constructor].
Qed.

Lemma replace_whitespace_runs s :
  replace_whitespace s = concat (List.map underscore_run (runs s))
  /\ after_match s =
     concat (List.map underscore_run (rest_of_match (runs s))).
Proof.
  induction s as [|c s [IH1 IH2]]; [split; reflexivity|].
  rewrite runs_cons. cbn [replace_whitespace after_match].
  rewrite IH1, IH2.
  destruct (isWhiteSpace c) eqn:Ec, (runs s) as [|[[|] run] rs];
    split; reflexivity.
Qed.

End Runs.

Lemma download_spec_filename (s : State) :
  download (handleDownload s) =
  spec_filename (title (processedPresentation s)).
Proof.
  unfold handleDownload, spec_filename. simpl.
  now rewrite (proj1 (replace_whitespace_runs _)).
Qed.

(** *** The decks a session holds *)

Lemma full_new_slide content index : full_slide (Some (new_slide content index)).
Proof. eexists. split; reflexivity. Qed.

Lemma derive_slides_full rawText : Forall full_slide (derive_slides rawText).
Proof.
  unfold derive_slides, mapi. generalize 0%nat.
  induction (List.filter Boolean (split_nn rawText)) as [|b bs IH];
    intros i; simpl; constructor; [apply full_new_slide | apply IH].
Qed.

Lemma array_get_Some {A : Type} (xs : list (option A)) (i : Z) (x : A) :
  array_get xs i = Some x ->
  0 <= i < Z.of_nat (length xs) /\ xs !! Z.to_nat i = Some (Some x).
Proof.
  unfold array_get. destruct (Z.ltb_spec i 0); [discriminate|].
  destruct (xs !! Z.to_nat i) as [x'|] eqn:E; [|discriminate].
  intros ->. split; [|reflexivity].
  apply lookup_lt_Some in E. lia.
Qed.

(** In every state of a session the index is not negative, and every
    element of [slides] is a slide object with the four properties. *)
Lemma reachable_invariant props s :
  reachable props s ->
  0 <= currentSlideIndex s
  /\ Forall full_slide (slides (processedPresentation s)).
Proof.
  induction 1 as [props uuid0 now0
                 | props uuid0 now0 uuid now
                 | old new uuid now s Hs [IHi IHs]
                 | props a s Hs [IHi IHs] Hcard Hoff].
  - split; [reflexivity | constructor].
  - split; [reflexivity | apply derive_slides_full].
  - unfold props_change.
    destruct (_ && _); [split; assumption|].
    split; [exact IHi | apply derive_slides_full].
  - destruct a as [| |k|value|field value|]; cbn [handle fst].
    + split; [|exact IHs]. unfold goToPreviousSlide.
      cbn [currentSlideIndex]. destruct (Z.ltb_spec 0 (currentSlideIndex s)); lia.
    + split; [|exact IHs]. unfold goToNextSlide.
      cbn [currentSlideIndex].
      destruct (Z.ltb_spec (currentSlideIndex s) (slides_length s - 1)); lia.
    + split; [cbn [jumpTo currentSlideIndex]; lia | exact IHs].
    + split; [exact IHi | exact IHs].
    + split; [exact IHi|].
      unfold render in Hcard.
      destruct (slides_length s =? 0); [discriminate|].
      destruct (currentSlide s) as [slide|] eqn:Ecur; [|discriminate].
      apply array_get_Some in Ecur as [Hi Hlook].
      unfold updateSlideContent, currentSlide.
      cbn [processedPresentation slides].
      rewrite array_set_inside by exact Hi.
      rewrite (array_get_lookup _ _ (Some slide)) by (lia || exact Hlook).
      apply Forall_insert; [exact IHs|].
      assert (Hfull : full_slide (Some slide)).
      { eapply Forall_lookup_1; [exact IHs | exact Hlook]. }
      destruct Hfull as (o & [= <-] & Hkeys).
      eexists. split; [reflexivity|]. cbn [spread].
      rewrite keys_set; [exact Hkeys|].
      rewrite Hkeys. cbn [offered] in Hoff.
      apply andb_true_iff in Hoff as [_ Hf].
      apply orb_true_iff in Hf as [Hf|Hf]; apply Key_eqb_eq in Hf;
        subst field; simpl; tauto.
    + unfold handleEditToggle. cbn [fst currentSlideIndex].
      split; assumption.
Qed.


(* ===================================================================== *)
(** ** More on splitting *)
(* ===================================================================== *)

Section Blocks.

Implicit Types (s : list N) (bs : list (list N)).

(** The first block of a split begins like the string, unless it is
    empty. *)
Lemma split_nn_first c s :
  exists b bs,
    split_nn (c :: s) = b :: bs /\ (b = [] \/ exists b', b = c :: b').
Proof.
  destruct s as [|d s]; [exists [c], []; split; eauto|].
  rewrite split_nn_cons2.
  destruct ((c =? LF)%N && (d =? LF)%N); [eauto|].
  destruct (split_nn (d :: s)) as [|b bs] eqn:E;
    [now apply split_nn_not_nil in E|].
  exists (c :: b), bs. split; eauto.
Qed.

Lemma occurs_nn_cons c d s i :
  (c =? LF)%N && (d =? LF)%N = false ->
  occurs_nn (c :: d :: s) i ->
  exists i', i = S i' /\ occurs_nn (d :: s) i'.
Proof.
  intros E [H1 H2]. destruct i as [|i'].
  - cbn in H1, H2. injection H1 as ->. injection H2 as ->. discriminate E.
  - exists i'. split; [reflexivity | split; assumption].
Qed.

Lemma occurs_nn_short c i : ~ occurs_nn [c] i.
Proof. intros [H1 H2]. destruct i; discriminate. Qed.

Lemma occurs_nn_nil i : ~ occurs_nn [] i.
Proof. intros [H1 H2]. discriminate. Qed.

(** No block of a split has the separator inside. *)
Lemma split_nn_blocks_free s :
  Forall (fun b => forall i, ~ occurs_nn b i) (split_nn s).
Proof.
  induction s as [|c|c d s IH1 IH2] using list_ind_pair.
  - constructor; [apply occurs_nn_nil | constructor].
  - constructor; [apply occurs_nn_short | constructor].
  - rewrite split_nn_cons2.
    destruct ((c =? LF)%N && (d =? LF)%N) eqn:E.
    + constructor; [apply occurs_nn_nil | exact IH1].
    + destruct (split_nn_first d s) as (b & bs & Hsplit & Hb).
      rewrite Hsplit in IH2 |- *. cbn [cons_head].
      apply Forall_cons in IH2 as [Hfree Hbs].
      constructor; [|exact Hbs].
      intros i Hi. destruct Hb as [->|[b' ->]];
        [now apply occurs_nn_short in Hi|].
      destruct (occurs_nn_cons c d b' i E Hi) as (i' & -> & Hi').
      exact (Hfree i' Hi').
Qed.

Lemma Forall_filter_Boolean (P : list N -> Prop) bs :
  Forall P bs -> Forall (fun b => b <> [] /\ P b) (List.filter Boolean bs).
Proof.
  induction 1 as [|b bs Hb Hbs IH]; simpl; [constructor|].
  destruct b as [|c b]; simpl; [exact IH|].
  constructor; [split; [discriminate | exact Hb] | exact IH].
Qed.

Lemma split_n_not_nil s : split_n s <> [].
Proof.
  destruct s as [|c s]; [discriminate|]. simpl.
  destruct (c =? LF)%N; [discriminate|].
  unfold cons_head. destruct (split_n s); discriminate.
Qed.

End Blocks.

(** X1: no content that [build] stores is empty, and none has two
    newline characters in a row. *)
Theorem build_contents_have_no_blank_line (rawText title uuid now : jsstring) :
  Forall (fun v => exists b,
            v = Some (VStr b) /\ b <> [] /\ forall i, ~ occurs_nn b i)
         (column Kcontent (build rawText title uuid now)).
Proof.
  rewrite column_build_content. apply List.Forall_map.
  eapply Forall_impl;
    [apply Forall_filter_Boolean, split_nn_blocks_free|].
  intros b [Hne Hfree]. exists b. auto.
Qed.

(** X2: the paragraphs of a content are its lines: joined with a
    newline they give the content back, none has a newline inside, and
    there is one more of them than there are newlines. *)
Theorem split_n_lines (content : jsstring) :
  join [LF] (split_n content) = content
  /\ Forall (fun line => ~ In LF line) (split_n content)
  /\ length (split_n content) = S (length (List.filter (N.eqb LF) content)).
Proof.
  induction content as [|c s (IHj & IHf & IHl)]; [repeat constructor; tauto|].
  cbn [split_n List.filter].
  destruct (N.eqb_spec c LF) as [->|Hc].
  - rewrite N.eqb_refl. split; [|split].
    + rewrite join_cons by apply split_n_not_nil. now rewrite IHj.
    + constructor; [tauto | exact IHf].
    + simpl. now rewrite IHl.
  - destruct (N.eqb_spec LF c) as [Heq|_]; [congruence|].
    destruct (split_n s) as [|l ls] eqn:E; [now apply split_n_not_nil in E|].
    cbn [cons_head]. split; [|split].
    + destruct ls as [|l' ls]; simpl in *; now rewrite <- IHj.
    + apply Forall_cons in IHf as [Hl Hls].
      constructor; [|exact Hls]. simpl. intros [Heq|Hin]; congruence || tauto.
    + exact IHl.
Qed.

(* ===================================================================== *)
(** ** More on navigation *)
(* ===================================================================== *)

Lemma goToPreviousSlide_eq (s : State) :
  goToPreviousSlide s =
  mkState (if 0 <? currentSlideIndex s then currentSlideIndex s - 1
           else currentSlideIndex s)
          (isEditing s) (processedPresentation s).
Proof. reflexivity. Qed.

Lemma goToNextSlide_eq (s : State) :
  goToNextSlide s =
  mkState (if currentSlideIndex s <? slides_length s - 1
           then currentSlideIndex s + 1 else currentSlideIndex s)
          (isEditing s) (processedPresentation s).
Proof. reflexivity. Qed.

(** X3: stepping forward and back, or back and forward, returns to the
    same state, unless the first step was stopped at an end. *)
Theorem navigation_round_trip (s : State) :
  (currentSlideIndex s < slides_length s - 1 ->
   0 <= currentSlideIndex s ->
   goToPreviousSlide (goToNextSlide s) = s)
  /\ (0 < currentSlideIndex s ->
      currentSlideIndex s <= slides_length s - 1 ->
      goToNextSlide (goToPreviousSlide s) = s).
Proof.
  destruct s as [i e p]. unfold slides_length.
  cbn [currentSlideIndex processedPresentation].
  set (n := Z.of_nat (length (slides p))).
  split; intros H1 H2.
  - rewrite goToNextSlide_eq. unfold slides_length.
    cbn [currentSlideIndex isEditing processedPresentation]. fold n.
    destruct (Z.ltb_spec i (n - 1)); [|lia].
    rewrite goToPreviousSlide_eq.
    cbn [currentSlideIndex isEditing processedPresentation].
    destruct (Z.ltb_spec 0 (i + 1)); [|lia].
    f_equal. lia.
  - rewrite goToPreviousSlide_eq.
    cbn [currentSlideIndex isEditing processedPresentation].
    destruct (Z.ltb_spec 0 i); [|lia].
    rewrite goToNextSlide_eq. unfold slides_length.
    cbn [currentSlideIndex isEditing processedPresentation]. fold n.
    destruct (Z.ltb_spec (i - 1) (n - 1)); [|lia].
    f_equal. lia.
Qed.

Lemma navigation_round_trip_witness :
  goToNextSlide (goToPreviousSlide three_slides) = three_slides
  /\ goToPreviousSlide (goToNextSlide viewing) = viewing.
Proof.
  split.
  - apply (proj2 (navigation_round_trip three_slides)); [reflexivity|].
    discriminate.
  - apply (proj1 (navigation_round_trip viewing)); [reflexivity|].
    discriminate.
Defined.

Lemma iter_goToNextSlide (k : nat) (s : State) :
  0 < slides_length s ->
  currentSlideIndex s <= slides_length s - 1 ->
  Nat.iter k goToNextSlide s =
  mkState (Z.min (slides_length s - 1) (currentSlideIndex s + Z.of_nat k))
          (isEditing s) (processedPresentation s).
Proof.
  intros Hn Hi. induction k as [|k IH].
  - simpl. destruct s as [i e p]. cbn [currentSlideIndex] in *.
    cbn [isEditing processedPresentation]. f_equal. lia.
  - rewrite Nat.iter_succ, IH, goToNextSlide_eq.
    unfold slides_length in *.
    cbn [currentSlideIndex isEditing processedPresentation].
    f_equal.
    destruct (Z.ltb_spec
                (Z.min (Z.of_nat (length (slides (processedPresentation s))) - 1)
                       (currentSlideIndex s + Z.of_nat k))
                (Z.of_nat (length (slides (processedPresentation s))) - 1));
      lia.
Qed.

Lemma iter_goToPreviousSlide (k : nat) (s : State) :
  0 <= currentSlideIndex s ->
  Nat.iter k goToPreviousSlide s =
  mkState (Z.max 0 (currentSlideIndex s - Z.of_nat k))
          (isEditing s) (processedPresentation s).
Proof.
  intros Hi. induction k as [|k IH].
  - simpl. destruct s as [i e p]. cbn [currentSlideIndex] in *.
    cbn [isEditing processedPresentation]. f_equal. lia.
  - rewrite Nat.iter_succ, IH, goToPreviousSlide_eq.
    cbn [currentSlideIndex isEditing processedPresentation].
    f_equal.
    destruct (Z.ltb_spec 0 (Z.max 0 (currentSlideIndex s - Z.of_nat k))); lia.
Qed.

(** X4: with the index in bounds, [k] steps forward lead to slide
    [min (n - 1) (i + k)] and [k] steps back to slide [max 0 (i - k)];
    so [n - 1] steps reach the last, respectively the first, slide
    from any slide, and further steps stay there.  Nothing but the
    index changes. *)
Theorem navigation_steps (k : nat) (s : State) :
  in_bounds s ->
  let i := currentSlideIndex s in
  let n := slides_length s in
  Nat.iter k goToNextSlide s =
    mkState (Z.min (n - 1) (i + Z.of_nat k))
            (isEditing s) (processedPresentation s)
  /\ Nat.iter k goToPreviousSlide s =
     mkState (Z.max 0 (i - Z.of_nat k))
             (isEditing s) (processedPresentation s)
  /\ (n - 1 <= Z.of_nat k ->
      currentSlideIndex (Nat.iter k goToNextSlide s) = n - 1
      /\ currentSlideIndex (Nat.iter k goToPreviousSlide s) = 0).
Proof.
  intros [Hlo Hhi]. cbv zeta.
  rewrite iter_goToNextSlide by lia.
  rewrite iter_goToPreviousSlide by lia.
  split; [reflexivity|]. split; [reflexivity|].
  intros Hk. cbn [currentSlideIndex]. lia.
Qed.

Lemma navigation_steps_witness :
  in_bounds viewing
  /\ currentSlideIndex (Nat.iter 5 goToNextSlide viewing) = 2.
Proof.
  assert (Hb : in_bounds viewing) by (split; discriminate).
  split; [exact Hb|].
  rewrite (proj1 (navigation_steps 5 viewing Hb)). reflexivity.
Defined.

(** X5: an arrow button that is drawn disabled is one whose handler
    would leave the state as it is; with the index in bounds the
    converse holds too: an enabled arrow moves the index by one. *)
Theorem disabled_arrows_are_no_ops (s : State) :
  (offered s ClickPrevious = false -> goToPreviousSlide s = s)
  /\ (offered s ClickNext = false -> goToNextSlide s = s)
  /\ (in_bounds s -> offered s ClickPrevious = true ->
      currentSlideIndex (goToPreviousSlide s) = currentSlideIndex s - 1)
  /\ (in_bounds s -> offered s ClickNext = true ->
      currentSlideIndex (goToNextSlide s) = currentSlideIndex s + 1).
Proof.
  cbn [offered]. repeat split.
  - intros H. apply negb_false_iff, Z.eqb_eq in H.
    rewrite goToPreviousSlide_eq. destruct s as [i e p].
    cbn [currentSlideIndex isEditing processedPresentation] in *.
    now subst i.
  - intros H. apply negb_false_iff, Z.eqb_eq in H.
    rewrite goToNextSlide_eq, H, Z.ltb_irrefl. destruct s as [i e p].
    cbn [currentSlideIndex isEditing processedPresentation] in *.
    now rewrite H.
  - intros [Hlo Hhi] H. apply negb_true_iff, Z.eqb_neq in H.
    rewrite goToPreviousSlide_eq. cbn [currentSlideIndex].
    destruct (Z.ltb_spec 0 (currentSlideIndex s)); lia.
  - intros [Hlo Hhi] H. apply negb_true_iff, Z.eqb_neq in H.
    rewrite goToNextSlide_eq. cbn [currentSlideIndex].
    destruct (Z.ltb_spec (currentSlideIndex s) (slides_length s - 1)); lia.
Qed.

Lemma disabled_arrows_are_no_ops_witness :
  offered three_slides ClickNext = false
  /\ goToNextSlide three_slides = three_slides
  /\ currentSlideIndex (goToPreviousSlide three_slides) = 1.
Proof.
  pose proof (disabled_arrows_are_no_ops three_slides) as (_ & Hn & Hp & _).
  split; [reflexivity|]. split; [exact (Hn eq_refl)|].
  apply Hp; [split; discriminate | reflexivity].
Defined.

Lemma lookup_mapi_from {A B : Type} (f : A -> nat -> B) i (xs : list A) k :
  mapi_from f i xs !! k = (fun x => f x (i + k)%nat) <$> xs !! k.
Proof.
  revert i k. induction xs as [|x xs IH]; intros i k; [reflexivity|].
  destruct k as [|k]; simpl.
  - now rewrite Nat.add_0_r.
  - rewrite IH. now rewrite Nat.add_succ_r.
Qed.

Lemma dots_without_holes (s : State) :
  Forall (fun x => x <> None) (slides (processedPresentation s)) ->
  dots s =
  mapi (fun (_ : option SlideContent) index =>
          Z.of_nat index =? currentSlideIndex s)
       (slides (processedPresentation s)).
Proof.
  intros Hfull. unfold dots, mapi. generalize 0%nat.
  induction Hfull as [|x xs Hx Hxs IH]; intros i; [reflexivity|].
  destruct x as [o|]; [|congruence].
  cbn [mapi_from]. rewrite <- IH. reflexivity.
Qed.

(** X6: on a deck without holes there is one dot per slide, and the
    dot at position [k] is the highlighted one exactly when [k] is the
    current index; so at most one dot is highlighted, none when the
    index is out of bounds, and after a click on a dot it is that
    dot. *)
Theorem dots_mark_current_slide (s : State) (k : nat) :
  Forall (fun x => x <> None) (slides (processedPresentation s)) ->
  length (dots s) = slide_count s
  /\ (dots s !! k = Some true <->
      (k < slide_count s)%nat /\ Z.of_nat k = currentSlideIndex s)
  /\ (~ in_bounds s -> Forall (fun d => d = false) (dots s))
  /\ (offered s (ClickDot k) = true ->
      dots (jumpTo (Z.of_nat k) s) !! k = Some true).
Proof.
  intros Hfull.
  assert (Hlook : forall s' j,
             Forall (fun x => x <> None) (slides (processedPresentation s')) ->
             dots s' !! j = Some true <->
             (j < slide_count s')%nat /\ Z.of_nat j = currentSlideIndex s').
  { intros s' j Hfull'. rewrite (dots_without_holes s' Hfull').
    unfold mapi, slide_count. rewrite lookup_mapi_from. simpl.
    destruct (slides (processedPresentation s') !! j) as [x|] eqn:E; simpl.
    - apply lookup_lt_Some in E. split.
      + intros [= H]. apply Z.eqb_eq in H. auto.
      + intros [_ H]. apply Z.eqb_eq in H. now rewrite H.
    - apply lookup_ge_None in E. split; [discriminate | lia]. }
  split; [rewrite (dots_without_holes s Hfull); apply length_mapi_from|].
  split; [now apply Hlook|]. split.
  - intros Hout. apply Forall_lookup. intros j d Hj.
    destruct d; [|reflexivity]. apply Hlook in Hj as [Hlt Heq]; [|exact Hfull].
    exfalso. apply Hout. unfold in_bounds, slides_length, slide_count in *.
    lia.
  - intros Hoff. cbn [offered] in Hoff. apply Z.ltb_lt in Hoff.
    apply Hlook; [exact Hfull|]. unfold slide_count, slides_length in *.
    cbn [jumpTo currentSlideIndex processedPresentation]. lia.
Qed.

Lemma dots_mark_current_slide_witness :
  Forall (fun x => x <> None) (slides (processedPresentation viewing))
  /\ offered viewing (ClickDot 1) = true
  /\ dots (jumpTo (Z.of_nat 1) viewing) !! 1%nat = Some true
  /\ dots (jumpTo (Z.of_nat 1) viewing) = [false; true; false].
Proof.
  assert (Hfull : Forall (fun x => x <> None)
                         (slides (processedPresentation viewing)))
    by (repeat constructor; discriminate).
  split; [exact Hfull|]. split; [reflexivity|].
  split; [|reflexivity].
  exact (proj2 (proj2 (proj2 (dots_mark_current_slide viewing 1 Hfull)))
           eq_refl).
Defined.

(* ===================================================================== *)
(** ** More on editing *)
(* ===================================================================== *)

Lemma set_set k v1 v2 o : set k v2 (set k v1 o) = set k v2 o.
Proof.
  induction o as [|[k' v'] o IH]; simpl.
  - now rewrite Key_eqb_refl.
  - destruct (Key_eqb k k') eqn:E; simpl.
    + now rewrite Key_eqb_refl.
    + now rewrite E, IH.
Qed.

Lemma set_same k v o : get k o = Some v -> set k v o = o.
Proof.
  induction o as [|[k' v'] o IH]; simpl; [discriminate|].
  destruct (Key_eqb k k') eqn:E.
  - apply Key_eqb_eq in E. subst k'. now intros [= ->].
  - intros H. now rewrite IH.
Qed.

Lemma set_comm k1 k2 v1 v2 o :
  k1 <> k2 ->
  In k1 (List.map fst o) -> In k2 (List.map fst o) ->
  set k1 v1 (set k2 v2 o) = set k2 v2 (set k1 v1 o).
Proof.
  intros Hne.
  assert (N12 : Key_eqb k1 k2 = false) by now apply Key_eqb_neq.
  assert (N21 : Key_eqb k2 k1 = false) by (apply Key_eqb_neq; congruence).
  induction o as [|[k v] o IH]; simpl; [tauto|].
  intros H1 H2.
  destruct (Key_eqb k2 k) eqn:E2, (Key_eqb k1 k) eqn:E1.
  - apply Key_eqb_eq in E1, E2. congruence.
  - apply Key_eqb_eq in E2. subst k.
    cbn [set]. now rewrite N12, Key_eqb_refl.
  - apply Key_eqb_eq in E1. subst k.
    cbn [set]. now rewrite N21, Key_eqb_refl.
  - cbn [set]. rewrite E1, E2. f_equal. apply Key_eqb_neq in E1, E2.
    apply IH; [destruct H1 | destruct H2]; congruence.
Qed.

Lemma updateSlideContent_inside field value s :
  in_bounds s ->
  updateSlideContent field value s =
  mkState (currentSlideIndex s) (isEditing s)
    (mkPresentation
       (id (processedPresentation s))
       (createdAt (processedPresentation s))
       (title (processedPresentation s))
       (<[Z.to_nat (currentSlideIndex s) :=
            Some (set field (VStr value) (spread (currentSlide s)))]>
          (slides (processedPresentation s)))).
Proof.
  intros [Hlo Hhi]. unfold updateSlideContent, currentSlide, slides_length in *.
  now rewrite array_set_inside by lia.
Qed.

Lemma in_bounds_updateSlideContent field value s :
  in_bounds s -> in_bounds (updateSlideContent field value s).
Proof.
  intros Hb. rewrite updateSlideContent_inside by exact Hb.
  unfold in_bounds, slides_length in *.
  cbn [currentSlideIndex processedPresentation slides].
  now rewrite length_insert.
Qed.

Lemma currentSlide_updateSlideContent field value s :
  in_bounds s ->
  currentSlide (updateSlideContent field value s) =
  Some (set field (VStr value) (spread (currentSlide s))).
Proof.
  intros Hb. rewrite updateSlideContent_inside by exact Hb.
  destruct Hb as [Hlo Hhi]. unfold slides_length in Hhi.
  unfold currentSlide at 1.
  cbn [currentSlideIndex processedPresentation slides].
  apply array_get_lookup; [exact Hlo|].
  apply list_lookup_insert_eq. lia.
Qed.

(** X7: with the index in bounds, typing into the same field twice
    leaves what was typed last; typing the old value back gives the
    old state back; typing into two different fields that the slide
    has gives the same state in either order; and typing into a slide
    and typing into the deck title give the same state in either
    order. *)
Theorem updateSlideContent_composes
    (field other : Key) (v w old : jsstring) (s : State) :
  in_bounds s ->
  updateSlideContent field w (updateSlideContent field v s) =
    updateSlideContent field w s
  /\ (get field (spread (currentSlide s)) = Some (VStr old) ->
      updateSlideContent field old (updateSlideContent field v s) = s)
  /\ (field <> other ->
      In field (current_keys s) -> In other (current_keys s) ->
      updateSlideContent field v (updateSlideContent other w s) =
      updateSlideContent other w (updateSlideContent field v s))
  /\ setTitle w (updateSlideContent field v s) =
     updateSlideContent field v (setTitle w s).
Proof.
  intros Hb.
  assert (Htwice : forall v' w',
             updateSlideContent field w' (updateSlideContent field v' s) =
             updateSlideContent field w' s).
  { intros v' w'.
    rewrite (updateSlideContent_inside field w' _
               (in_bounds_updateSlideContent field v' s Hb)).
    rewrite currentSlide_updateSlideContent by exact Hb.
    rewrite !(updateSlideContent_inside _ _ s Hb).
    cbn [currentSlideIndex isEditing processedPresentation id createdAt
         title slides spread].
    now rewrite set_set, list_insert_insert_eq. }
  split; [apply Htwice|]. split; [|split].
  - intros Hold. rewrite Htwice.
    rewrite (updateSlideContent_inside _ _ s Hb).
    destruct (currentSlide s) as [o|] eqn:Ecur; [|discriminate].
    cbn [spread] in *. rewrite (set_same _ _ _ Hold).
    apply array_get_Some in Ecur as [_ Hlook].
    rewrite list_insert_id by exact Hlook.
    now destruct s as [i e [? ? ? ?]].
  - intros Hne Hf Ho. unfold current_keys in *.
    rewrite (updateSlideContent_inside field v _
               (in_bounds_updateSlideContent other w s Hb)).
    rewrite (updateSlideContent_inside other w _
               (in_bounds_updateSlideContent field v s Hb)).
    rewrite !currentSlide_updateSlideContent by exact Hb.
    rewrite !(updateSlideContent_inside _ _ s Hb).
    cbn [currentSlideIndex isEditing processedPresentation id createdAt
         title slides spread].
    rewrite !list_insert_insert_eq.
    now rewrite (set_comm field other) by assumption.
  - reflexivity.
Qed.

Lemma updateSlideContent_composes_witness :
  in_bounds viewing
  /\ updateSlideContent Kcontent (js "Intro text")
       (updateSlideContent Kcontent (js "Draft") viewing) = viewing
  /\ updateSlideContent Ktitle (js "One")
       (updateSlideContent Kcontent (js "Two") viewing) =
     updateSlideContent Kcontent (js "Two")
       (updateSlideContent Ktitle (js "One") viewing).
Proof.
  assert (Hb : in_bounds viewing) by (split; discriminate).
  split; [exact Hb|].
  destruct (updateSlideContent_composes Kcontent Ktitle (js "Draft")
              (js "Two") (js "Intro text") viewing Hb) as (_ & Hback & _).
  destruct (updateSlideContent_composes Ktitle Kcontent (js "One")
              (js "Two") [] viewing Hb) as (_ & _ & Hcomm & _).
  split; [exact (Hback eq_refl)|].
  apply Hcomm; [discriminate | simpl; tauto | simpl; tauto].
Defined.

(** X8: with the index past the end of [slides] (and below 2^32 - 1),
    [updateSlideContent] makes the array longer: the slides there were
    stay, holes fill the positions up to the index, and the element at
    the index is an object with the one property written.  With a
    negative index the elements of [slides] are left as they are. *)
Theorem updateSlideContent_past_the_end
    (field : Key) (value : jsstring) (s : State) :
  let old := slides (processedPresentation s) in
  let new := slides (processedPresentation (updateSlideContent field value s)) in
  let i := Z.to_nat (currentSlideIndex s) in
  (slides_length s <= currentSlideIndex s < 2 ^ 32 - 1 ->
   length new = S i
   /\ (forall j, (j < length old)%nat -> new !! j = old !! j)
   /\ (forall j, (length old <= j < i)%nat -> new !! j = Some None)
   /\ new !! i = Some (Some [(field, VStr value)]))
  /\ (currentSlideIndex s < 0 -> new = old).
Proof.
  cbv zeta. unfold updateSlideContent, slides_length.
  cbn [processedPresentation slides].
  set (xs := slides (processedPresentation s)).
  set (i := currentSlideIndex s).
  split.
  - intros [Hlo Hhi].
    assert (Hget : array_get xs i = None).
    { unfold array_get. destruct (Z.ltb_spec i 0); [reflexivity|].
      now rewrite (proj2 (lookup_ge_None xs (Z.to_nat i))) by lia. }
    rewrite Hget. cbn [spread set]. unfold array_set.
    destruct (Z.ltb_spec i 0); [lia|].
    destruct (Z.ltb_spec i (Z.of_nat (length xs))); [lia|].
    destruct (Z.ltb_spec i (2 ^ 32 - 1)); [|lia].
    assert (Hle : (length xs <= Z.to_nat i)%nat) by lia.
    clearbody xs i. clear - Hle.
    repeat split.
    + rewrite !length_app, length_replicate. simpl. lia.
    + intros j Hj. now rewrite lookup_app_l.
    + intros j [Hj1 Hj2]. rewrite lookup_app_r by lia.
      rewrite lookup_app_l by (rewrite length_replicate; lia).
      apply lookup_replicate_2. lia.
    + rewrite lookup_app_r by exact Hle.
      apply list_lookup_middle. now rewrite length_replicate.
  - intros Hneg. unfold array_set.
    destruct (Z.ltb_spec i 0); [reflexivity | lia].
Qed.

Lemma updateSlideContent_past_the_end_witness :
  slides_length (jumpTo 4 viewing) <= 4 < 2 ^ 32 - 1
  /\ List.map JSON_of_element
       (slides (processedPresentation
                  (updateSlideContent Kcontent (js "x") (jumpTo 4 viewing))))
       !! 3%nat = Some JNull
  /\ length (slides (processedPresentation
                       (updateSlideContent Kcontent (js "x")
                          (jumpTo 4 viewing)))) = 5%nat.
Proof.
  assert (Hr : slides_length (jumpTo 4 viewing) <= 4 < 2 ^ 32 - 1)
    by (split; [discriminate | reflexivity]).
  split; [exact Hr|]. split; [reflexivity|].
  exact (proj1 (proj1 (updateSlideContent_past_the_end Kcontent (js "x")
                         (jumpTo 4 viewing)) Hr)).
Defined.

(* ===================================================================== *)
(** ** More on edit mode *)
(* ===================================================================== *)

Lemma commits_app calls1 calls2 :
  commits (calls1 ++ calls2) = commits calls1 ++ commits calls2.
Proof. apply flat_map_app. Qed.

Lemma toasts_app calls1 calls2 :
  toasts (calls1 ++ calls2) = (toasts calls1 + toasts calls2)%nat.
Proof. unfold toasts. now rewrite List.filter_app, length_app. Qed.

Lemma run_cons props a acts s :
  run props (a :: acts) s =
  (fst (run props acts (fst (handle props a s))),
   snd (handle props a s) ++ snd (run props acts (fst (handle props a s)))).
Proof.
  cbn [run]. destruct (handle props a s) as [s1 calls1].
  cbn [fst snd]. now destruct (run props acts s1).
Qed.

Lemma toggles_cons a acts :
  toggles (a :: acts) =
  match a with
  | ClickEditToggle => S (toggles acts)
  | _ => toggles acts
  end.
Proof. now destruct a. Qed.

(** X9: over any run of handlers the edit button works as a switch:
    two clicks on it bring the state back; edit mode ends up on or off
    by the parity of the clicks; with an [onSave] there is one call of
    it for every click that leaves edit mode, that is for every second
    click, and without one there is none; and a toast is shown once
    per call of [onSave], never otherwise. *)
Theorem edit_toggle_is_a_switch
    (props : Props.t) (acts : list Action) (s : State) :
  let final := run props acts s in
  fst (handleEditToggle props (fst (handleEditToggle props s))) = s
  /\ isEditing (fst final) = xorb (isEditing s) (Nat.odd (toggles acts))
  /\ length (commits (snd final)) =
     (if Props.onSave props
      then (toggles acts + (if isEditing s then 1 else 0)) / 2
      else 0)%nat
  /\ toasts (snd final) = length (commits (snd final)).
Proof.
  cbv zeta. split.
  { destruct s as [i e p]. unfold handleEditToggle. simpl.
    now rewrite negb_involutive. }
  revert s. induction acts as [|a acts IH]; intros s.
  - simpl. rewrite xorb_false_r.
    destruct (Props.onSave props), (isEditing s); repeat split.
  - rewrite run_cons, toggles_cons. cbn [fst snd].
    rewrite commits_app, toasts_app, length_app.
    destruct (IH (fst (handle props a s))) as (Hm & Hc & Ht).
    rewrite Hm, Ht, Hc. clear IH Hm Hc Ht.
    assert (Ha : a = ClickEditToggle \/ a <> ClickEditToggle)
      by (destruct a; (now left) || (right; discriminate)).
    destruct Ha as [->|Ha].
    + cbn [handle]. unfold handleEditToggle. cbn [fst snd isEditing].
      rewrite Nat.odd_succ, <- Nat.negb_odd.
      destruct (isEditing s), (Props.onSave props); cbn [negb];
        (split; [now destruct (Nat.odd (toggles acts))|]).
      * split; [|reflexivity]. cbn [commits flat_map length app].
        replace (S (toggles acts) + 1)%nat with (toggles acts + 0 + 1 * 2)%nat
          by lia.
        rewrite Nat.div_add by discriminate. lia.
      * split; reflexivity.
      * split; [|reflexivity]. cbn [commits flat_map length].
        now replace (S (toggles acts) + 0)%nat with (toggles acts + 1)%nat
          by lia.
      * split; reflexivity.
    + destruct (handle_quiet props a s Ha) as [Hq Hmode].
      rewrite Hq, Hmode. cbn [commits flat_map toasts List.filter length].
      destruct a; try congruence; repeat split.
Qed.

(* ===================================================================== *)
(** ** What a session keeps *)
(* ===================================================================== *)

Lemma plain_new_slide content index :
  plain_slide (Some (new_slide content index)).
Proof. eexists _, _. reflexivity. Qed.

Lemma derive_slides_plain rawText : Forall plain_slide (derive_slides rawText).
Proof.
  unfold derive_slides, mapi. generalize 0%nat.
  induction (List.filter Boolean (split_nn rawText)) as [|b bs IH];
    intros i; simpl; constructor; [apply plain_new_slide | apply IH].
Qed.

Lemma render_Card_lookup s :
  render s = Card ->
  exists slide,
    currentSlide s = Some slide
    /\ in_bounds s
    /\ slides (processedPresentation s) !! Z.to_nat (currentSlideIndex s)
       = Some (Some slide).
Proof.
  unfold render. destruct (slides_length s =? 0); [discriminate|].
  destruct (currentSlide s) as [slide|] eqn:Ecur; [|discriminate].
  intros _. exists slide. split; [reflexivity|].
  apply array_get_Some in Ecur as [Hi Hlook].
  unfold in_bounds, slides_length. split; [lia | exact Hlook].
Qed.

Lemma reachable_plain props s :
  reachable props s -> Forall plain_slide (slides (processedPresentation s)).
Proof.
  induction 1 as [props uuid0 now0
                 | props uuid0 now0 uuid now
                 | old new uuid now s Hs IHs
                 | props a s Hs IHs Hcard Hoff].
  - constructor.
  - apply derive_slides_plain.
  - unfold props_change.
    destruct (_ && _); [assumption | apply derive_slides_plain].
  - destruct a as [| |k|value|field value|]; cbn [handle fst]; try exact IHs.
    destruct (render_Card_lookup s Hcard) as (slide & Hcur & Hb & Hlook).
    rewrite updateSlideContent_inside by exact Hb.
    cbn [processedPresentation slides]. rewrite Hcur. cbn [spread].
    apply Forall_insert; [exact IHs|].
    destruct (Forall_lookup_1 _ _ _ _ IHs Hlook) as (t & c & [= ->]).
    cbn [offered] in Hoff. apply andb_true_iff in Hoff as [_ Hf].
    apply orb_true_iff in Hf as [Hf|Hf]; apply Key_eqb_eq in Hf; subst field;
      eexists _, _; reflexivity.
Qed.

Lemma plain_render s :
  Forall plain_slide (slides (processedPresentation s)) ->
  in_bounds s -> render s = Card.
Proof.
  intros Hplain [Hlo Hhi]. unfold render, slides_length in *.
  destruct (Z.eqb_spec (Z.of_nat (length (slides (processedPresentation s)))) 0);
    [lia|].
  destruct (lookup_lt_is_Some_2 (slides (processedPresentation s))
              (Z.to_nat (currentSlideIndex s))) as [x Hx]; [lia|].
  destruct (Forall_lookup_1 _ _ _ _ Hplain Hx) as (t & c & ->).
  unfold currentSlide. rewrite (array_get_lookup _ _ _ Hlo Hx).
  now destruct (isEditing s).
Qed.

(** X10: in every state of a session the index is not negative and
    every slide is an object with a string title, a string content, an
    empty [imageUrl] and an empty [style]: the handlers never write
    the last two.  So the current slide, when there is one, gets the
    default styles, shows no image layer, and has paragraphs to show. *)
Theorem session_slides_stay_plain (props : Props.t) (s : State) :
  reachable props s ->
  0 <= currentSlideIndex s
  /\ Forall plain_slide (slides (processedPresentation s))
  /\ match currentSlide s with
     | Some slide =>
         getSlideStyles s = Some default_styles
         /\ image_shown slide = false
         /\ paragraphs slide <> None
     | None => getSlideStyles s = None
     end.
Proof.
  intros Hs. pose proof (reachable_plain props s Hs) as Hplain.
  split; [apply (reachable_invariant props s Hs)|].
  split; [exact Hplain|].
  unfold getSlideStyles.
  destruct (currentSlide s) as [slide|] eqn:Ecur; [|reflexivity].
  apply array_get_Some in Ecur as [_ Hlook].
  destruct (Forall_lookup_1 _ _ _ _ Hplain Hlook) as (t & c & [= ->]).
  repeat split. discriminate.
Qed.

Lemma session_slides_stay_plain_witness :
  reachable with_onSave three_slides
  /\ getSlideStyles three_slides = Some default_styles.
Proof.
  pose proof (three_slides_reachable true) as Hr.
  split; [exact Hr|].
  exact (proj1 (proj2 (proj2
           (session_slides_stay_plain with_onSave three_slides Hr)))).
Defined.

(** X11: what a session renders depends on the number of slides and
    on the index only: the placeholder when there is no slide, the
    card when the index is in bounds, and a render that throws when
    there are slides and the index is past the last one. *)
Theorem session_render (props : Props.t) (s : State) :
  reachable props s ->
  (render s = Loading <-> slides (processedPresentation s) = [])
  /\ (render s = Card <-> in_bounds s)
  /\ (render s = Thrown <->
      0 < slides_length s <= currentSlideIndex s).
Proof.
  intros Hs. pose proof (reachable_plain props s Hs) as Hplain.
  pose proof (proj1 (reachable_invariant props s Hs)) as Hlo.
  assert (Hsome : forall x, currentSlide s = x ->
                    x = None -> slides_length s <= currentSlideIndex s).
  { intros x Hx ->. unfold currentSlide, array_get, slides_length in *.
    destruct (Z.ltb_spec (currentSlideIndex s) 0); [lia|].
    destruct (slides (processedPresentation s) !! Z.to_nat (currentSlideIndex s))
      as [y|] eqn:Ey.
    - destruct (Forall_lookup_1 _ _ _ _ Hplain Ey) as (t & c & ->).
      discriminate.
    - apply lookup_ge_None in Ey. lia. }
  assert (Hlen : slides_length s = 0 <->
                 slides (processedPresentation s) = []).
  { unfold slides_length.
    destruct (slides (processedPresentation s)); simpl; split;
      congruence || lia. }
  assert (Hcard : render s = Card <-> in_bounds s).
  { split; [|apply plain_render; exact Hplain].
    intros H. now destruct (render_Card_lookup s H) as (? & _ & Hb & _). }
  split; [|split; [exact Hcard|]].
  - rewrite <- Hlen. unfold render.
    destruct (Z.eqb_spec (slides_length s) 0) as [H0|H0]; [tauto|].
    split; [|tauto].
    destruct (currentSlide s) as [slide|]; [|discriminate].
    destruct (isEditing s); [discriminate|].
    destruct (get Kcontent slide) as [[?|?]|]; discriminate.
  - split.
    + intros Ht. pose proof Ht as Ht0. unfold render in Ht.
      destruct (Z.eqb_spec (slides_length s) 0) as [H0|H0]; [discriminate|].
      assert (0 <= slides_length s) by (unfold slides_length; lia).
      split; [lia|].
      destruct (currentSlide s) as [slide|] eqn:Ecur;
        [|now apply (Hsome None)].
      exfalso. apply array_get_Some in Ecur as [Hi Hlook].
      assert (Hc : render s = Card)
        by (apply Hcard; unfold in_bounds, slides_length; lia).
      congruence.
    + intros [Hpos Hge].
      case_eq (render s); intros Er; [| |reflexivity].
      * unfold render in Er.
        destruct (Z.eqb_spec (slides_length s) 0) as [H0|H0]; [lia|].
        destruct (currentSlide s) as [slide|]; [|discriminate].
        destruct (isEditing s); [discriminate|].
        destruct (get Kcontent slide) as [[?|?]|]; discriminate.
      * apply Hcard in Er. unfold in_bounds in Er. lia.
Qed.

Lemma session_render_witness :
  reachable with_onSave three_slides /\ render three_slides = Card.
Proof.
  pose proof (three_slides_reachable true) as Hr.
  split; [exact Hr|].
  apply (proj1 (proj2 (session_render with_onSave three_slides Hr))).
  split; discriminate.
Defined.

Lemma in_bounds_handle props a s :
  in_bounds s -> offered s a = true -> in_bounds (fst (handle props a s)).
Proof.
  intros Hb Hoff. destruct a as [| |k|value|field value|]; cbn [handle fst].
  - destruct Hb as [Hlo Hhi]. rewrite goToPreviousSlide_eq.
    unfold in_bounds, slides_length in *.
    cbn [currentSlideIndex processedPresentation].
    destruct (Z.ltb_spec 0 (currentSlideIndex s)); lia.
  - destruct Hb as [Hlo Hhi]. rewrite goToNextSlide_eq.
    unfold in_bounds, slides_length in *.
    cbn [currentSlideIndex processedPresentation].
    destruct (Z.ltb_spec (currentSlideIndex s)
                (Z.of_nat (length (slides (processedPresentation s))) - 1));
      lia.
  - cbn [offered] in Hoff. apply Z.ltb_lt in Hoff.
    unfold in_bounds, slides_length in *.
    cbn [jumpTo currentSlideIndex processedPresentation]. lia.
  - exact Hb.
  - now apply in_bounds_updateSlideContent.
  - exact Hb.
Qed.

Lemma slide_count_handle props a s :
  in_bounds s -> slide_count (fst (handle props a s)) = slide_count s.
Proof.
  intros Hb. destruct a as [| |k|value|field value|]; try reflexivity.
  cbn [handle fst]. rewrite updateSlideContent_inside by exact Hb.
  unfold slide_count. cbn [processedPresentation slides].
  apply length_insert.
Qed.

(** X12: no handler breaks the card.  When a session shows the card
    and the card offers an action, the state after the handler shows
    the card again, with the index in bounds, as many slides as
    before, and the [id] and [createdAt] the deck had. *)
Theorem handlers_keep_the_card (props : Props.t) (a : Action) (s : State) :
  reachable props s ->
  render s = Card ->
  offered s a = true ->
  let s' := fst (handle props a s) in
  render s' = Card
  /\ in_bounds s'
  /\ slide_count s' = slide_count s
  /\ id (processedPresentation s') = id (processedPresentation s)
  /\ createdAt (processedPresentation s') =
     createdAt (processedPresentation s).
Proof.
  intros Hs Hcard Hoff. cbv zeta.
  destruct (render_Card_lookup s Hcard) as (slide & _ & Hb & _).
  pose proof (in_bounds_handle props a s Hb Hoff) as Hb'.
  split; [|split; [exact Hb'|split; [now apply slide_count_handle|]]].
  - apply plain_render; [|exact Hb'].
    apply (reachable_plain props). now apply reach_handle.
  - destruct a as [| |k|value|field value|]; split; reflexivity.
Qed.

Lemma handlers_keep_the_card_witness :
  reachable with_onSave three_slides
  /\ render three_slides = Card
  /\ offered three_slides (TypeSlide Kcontent (js "Done")) = true
  /\ render (updateSlideContent Kcontent (js "Done") three_slides) = Card.
Proof.
  pose proof (three_slides_reachable true) as Hr.
  split; [exact Hr|]. split; [reflexivity|]. split; [reflexivity|].
  exact (proj1 (handlers_keep_the_card with_onSave
                  (TypeSlide Kcontent (js "Done")) three_slides
                  Hr eq_refl eq_refl)).
Defined.

(** X13: the first effect never leaves a render that throws: after it
    the component shows the placeholder when the text is made of an
    even number of newline characters, the empty text included, and
    the card on its first slide otherwise.  Before it, the
    placeholder. *)
Theorem mount_shows_placeholder_or_card
    (props : Props.t) (uuid0 now0 uuid now : jsstring) :
  let s := rebuild props uuid now (initial props uuid0 now0) in
  render (initial props uuid0 now0) = Loading
  /\ currentSlideIndex s = 0
  /\ (render s = Loading <->
      exists m : nat, Props.result props = replicate (2 * m) LF)
  /\ (render s = Card <->
      ~ exists m : nat, Props.result props = replicate (2 * m) LF).
Proof.
  cbv zeta. split; [reflexivity|]. split; [reflexivity|].
  rewrite <- derive_slides_nil.
  set (s := rebuild props uuid now (initial props uuid0 now0)).
  assert (Hplain : Forall plain_slide (slides (processedPresentation s)))
    by apply derive_slides_plain.
  change (derive_slides (Props.result props))
    with (slides (processedPresentation s)).
  destruct (slides (processedPresentation s)) as [|x xs] eqn:E.
  - assert (Hr : render s = Loading)
      by (unfold render, slides_length; now rewrite E).
    rewrite Hr. split; split; congruence.
  - assert (Hr : render s = Card).
    { apply plain_render; [now rewrite E|].
      unfold in_bounds, slides_length. rewrite E.
      change (currentSlideIndex s) with 0. simpl length. lia. }
    rewrite Hr. split; split; congruence.
Qed.

(** X14: the effect looks at the text and the source only.  A render
    whose props differ from the previous ones in the title or in
    [onSave] alone leaves the state as it is, so that the stored deck
    keeps the title it had; a change of the text or of the source
    stores a new deck, with a new [id] and [createdAt], and keeps the
    index and the edit-mode flag. *)
Theorem effect_runs_on_text_or_source
    (old new : Props.t) (uuid now : jsstring) (s : State) :
  let s' := props_change old new uuid now s in
  (Props.result old = Props.result new ->
   Props.source old = Props.source new -> s' = s)
  /\ (Props.result old <> Props.result new
      \/ Props.source old <> Props.source new ->
      processedPresentation s' =
        build (Props.result new) (Props.title new) uuid now
      /\ currentSlideIndex s' = currentSlideIndex s
      /\ isEditing s' = isEditing s).
Proof.
  cbv zeta. unfold props_change. split.
  - intros Hr Hsrc. now rewrite !bool_decide_eq_true_2.
  - intros [H|H].
    + now rewrite (bool_decide_eq_false_2 _ H).
    + rewrite (bool_decide_eq_false_2 _ H), andb_false_r. repeat split.
Qed.

Lemma effect_runs_on_text_or_source_witness :
  let renamed := Props.mk example_text (js "gemini-api") (js "Renamed") true in
  Props.result with_onSave = Props.result renamed
  /\ Props.source with_onSave = Props.source renamed
  /\ title (processedPresentation
              (props_change with_onSave renamed (js "id-2") (js "t-2")
                 three_slides)) = js "Demo".
Proof.
  cbv zeta. split; [reflexivity|]. split; [reflexivity|].
  rewrite (proj1 (effect_runs_on_text_or_source with_onSave
                    (Props.mk example_text (js "gemini-api") (js "Renamed") true)
                    (js "id-2") (js "t-2") three_slides) eq_refl eq_refl).
  reflexivity.
Defined.

(* ===================================================================== *)
(** ** Styles *)
(* ===================================================================== *)

Lemma or_else_not_empty x fallback : fallback <> [] -> or_else x fallback <> [].
Proof.
  intros Hf. unfold or_else. destruct x as [[|c v]|]; simpl; congruence.
Qed.

Lemma truthy_Some x v : truthy x = Some v <-> x = Some v /\ v <> [].
Proof.
  unfold truthy. destruct x as [[|c w]|]; simpl; split.
  all: try (intros [= <-]; split; [reflexivity | discriminate]).
  all: try discriminate.
  all: intros [H1 H2]; congruence.
Qed.

Lemma or_else_given x v fallback :
  x = Some v -> v <> [] -> or_else x fallback = v.
Proof. intros -> Hv. destruct v; [congruence | reflexivity]. Qed.

Lemma or_else_fallback x fallback :
  x = None \/ x = Some [] -> or_else x fallback = fallback.
Proof. intros [->| ->]; reflexivity. Qed.

(** X15: the alignment and the text colour of a slide are the hints
    [alignment] and [textColor] when they are given and not empty, and
    "left" and "#333333" otherwise, so that they are never empty; a
    gradient that is given and not empty becomes the background and
    hides the background colour, which is set, to the hint of that
    name, only when there is no such gradient, so that the two are
    never set together; the font size is set, to "1.125rem", exactly
    for the hint "large".  [getSlideStyles] throws exactly when there
    is no current slide. *)
Theorem slide_styles_shape (slide : SlideContent) (s : State) :
  let css := slide_styles slide in
  let style := style_hints slide in
  (forall a, hint (js "alignment") style = Some a -> a <> [] ->
     textAlign css = a)
  /\ (hint (js "alignment") style = None
      \/ hint (js "alignment") style = Some [] ->
      textAlign css = js "left")
  /\ (forall c, hint (js "textColor") style = Some c -> c <> [] ->
        color css = c)
  /\ (hint (js "textColor") style = None
      \/ hint (js "textColor") style = Some [] ->
      color css = js "#333333")
  /\ textAlign css <> [] /\ color css <> []
  /\ (forall g, hint (js "gradient") style = Some g -> g <> [] ->
        background css = Some g /\ backgroundColor css = None)
  /\ (hint (js "gradient") style = None
      \/ hint (js "gradient") style = Some [] ->
      background css = None
      /\ forall c, hint (js "backgroundColor") style = Some c -> c <> [] ->
           backgroundColor css = Some c)
  /\ (background css = None \/ backgroundColor css = None)
  /\ (forall c, backgroundColor css = Some c ->
        hint (js "backgroundColor") style = Some c /\ c <> []
        /\ truthy (hint (js "gradient") style) = None)
  /\ (fontSize css = Some (js "1.125rem") <->
      hint (js "fontSize") style = Some (js "large"))
  /\ (fontSize css = None <->
      hint (js "fontSize") style <> Some (js "large"))
  /\ (getSlideStyles s = None <-> currentSlide s = None).
Proof.
  cbv zeta. unfold slide_styles.
  cbn [textAlign color background backgroundColor fontSize].
  set (style := style_hints slide).
  split; [intros a; apply or_else_given|].
  split; [apply or_else_fallback|].
  split; [intros c; apply or_else_given|].
  split; [apply or_else_fallback|].
  split; [apply or_else_not_empty; discriminate|].
  split; [apply or_else_not_empty; discriminate|].
  split; [|split; [|split; [|split; [|split; [|split]]]]].
  - intros g Hg Hne.
    assert (Ht : truthy (hint (js "gradient") style) = Some g)
      by (apply truthy_Some; auto).
    now rewrite Ht.
  - intros Hg.
    assert (Ht : truthy (hint (js "gradient") style) = None)
      by (destruct Hg as [-> | ->]; reflexivity).
    rewrite Ht. split; [reflexivity|].
    intros c Hc Hne. apply truthy_Some. auto.
  - destruct (truthy (hint (js "gradient") style)); auto.
  - intros c Hc.
    destruct (truthy (hint (js "gradient") style)) eqn:Eg; [discriminate|].
    apply truthy_Some in Hc as [Hc1 Hc2]. auto.
  - destruct (bool_decide_reflect
                (hint (js "fontSize") style = Some (js "large")));
      split; congruence.
  - destruct (bool_decide_reflect
                (hint (js "fontSize") style = Some (js "large")));
      split; congruence.
  - unfold getSlideStyles. destruct (currentSlide s); simpl; split; congruence.
Qed.

(** A slide with a centred text, a background colour, a gradient and
    the large font: the alignment is the hint, the colour is the
    default, and the gradient wins over the background colour. *)
Lemma slide_styles_shape_witness :
  let slide := [ (Kstyle,
                  VObj [ (js "alignment", js "center");
                         (js "backgroundColor", js "#fff");
                         (js "gradient", js "linear-gradient(red, blue)");
                         (js "fontSize", js "large") ]) ] in
  textAlign (slide_styles slide) = js "center"
  /\ color (slide_styles slide) = js "#333333"
  /\ background (slide_styles slide) = Some (js "linear-gradient(red, blue)")
  /\ backgroundColor (slide_styles slide) = None.
Proof.
  cbv zeta.
  destruct (slide_styles_shape
              [ (Kstyle,
                 VObj [ (js "alignment", js "center");
                        (js "backgroundColor", js "#fff");
                        (js "gradient", js "linear-gradient(red, blue)");
                        (js "fontSize", js "large") ]) ] viewing)
    as (Ha & _ & _ & Hc & _ & _ & Hg & _).
  split; [apply Ha; [reflexivity | discriminate]|].
  split; [apply Hc; left; reflexivity|].
  apply Hg; [reflexivity | discriminate].
Defined.

(* ===================================================================== *)
(** ** More on the file name *)
(* ===================================================================== *)

Lemma replace_whitespace_clean (t : list N) :
  Forall (fun c => isWhiteSpace c = false) (replace_whitespace t)
  /\ Forall (fun c => isWhiteSpace c = false) (after_match t).
Proof.
  induction t as [|c t [IH1 IH2]]; [split; constructor|].
  cbn [replace_whitespace after_match].
  destruct (isWhiteSpace c) eqn:Ec; split.
  - constructor; [reflexivity | exact IH2].
  - exact IH2.
  - constructor; [exact Ec | exact IH1].
  - constructor; [exact Ec | exact IH1].
Qed.

Lemma replace_whitespace_id (t : list N) :
  Forall (fun c => isWhiteSpace c = false) t -> replace_whitespace t = t.
Proof.
  induction 1 as [|c t Hc Ht IH]; [reflexivity|].
  cbn [replace_whitespace]. now rewrite Hc, IH.
Qed.

Lemma replace_whitespace_length (t : list N) :
  (length (replace_whitespace t) <= length t)%nat
  /\ (length (after_match t) <= length t)%nat.
Proof.
  induction t as [|c t [IH1 IH2]]; [split; reflexivity|].
  cbn [replace_whitespace after_match].
  destruct (isWhiteSpace c); simpl; lia.
Qed.

(** X16: the file name that [handleDownload] gives has no white space
    character at all and is at most five characters longer than the
    title; a title without white space is kept as it is; replacing
    again in the result changes nothing. *)
Theorem download_name_is_clean (s : State) :
  let name := download (handleDownload s) in
  let t := title (processedPresentation s) in
  Forall (fun c => isWhiteSpace c = false) name
  /\ (length name <= length t + 5)%nat
  /\ (Forall (fun c => isWhiteSpace c = false) t -> name = t ++ js ".json")
  /\ replace_whitespace (replace_whitespace t) = replace_whitespace t
  /\ replace_whitespace name = name.
Proof.
  cbv zeta. unfold handleDownload. cbn [download].
  set (t := title (processedPresentation s)).
  assert (Hclean : Forall (fun c => isWhiteSpace c = false)
                          (replace_whitespace t ++ js ".json")).
  { apply Forall_app. split; [apply replace_whitespace_clean|].
    repeat constructor. }
  split; [exact Hclean|]. split; [|split; [|split]].
  - rewrite length_app. pose proof (proj1 (replace_whitespace_length t)).
    simpl. lia.
  - intros Ht. now rewrite replace_whitespace_id.
  - apply replace_whitespace_id, replace_whitespace_clean.
  - now apply replace_whitespace_id.
Qed.

Lemma download_name_is_clean_witness :
  Forall (fun c => isWhiteSpace c = false)
         (title (processedPresentation viewing))
  /\ download (handleDownload viewing) = js "Demo.json".
Proof.
  assert (Ht : Forall (fun c => isWhiteSpace c = false)
                      (title (processedPresentation viewing)))
    by (repeat constructor).
  split; [exact Ht|].
  exact (proj1 (proj2 (proj2 (download_name_is_clean viewing))) Ht).
Defined.

(* ===================================================================== *)
(** ** The text behind [href] *)
(* ===================================================================== *)

Section Text.

Local Open Scope N_scope.

Implicit Types (c d : N) (t : list N).

Lemma ascii_plain c : 32 <= c < 128 -> plain c.
Proof.
  intros H. unfold plain, is_high_surrogate, is_low_surrogate.
  split; [lia|].
  split; apply andb_false_iff; left; apply N.leb_gt; lia.
Qed.

Lemma high_surrogate_range c :
  is_high_surrogate c = true <-> 55296 <= c <= 56319.
Proof.
  unfold is_high_surrogate. rewrite andb_true_iff, !N.leb_le. tauto.
Qed.

Lemma low_surrogate_range c :
  is_low_surrogate c = true <-> 56320 <= c <= 57343.
Proof.
  unfold is_low_surrogate. rewrite andb_true_iff, !N.leb_le. tauto.
Qed.

Lemma high_not_low c : is_high_surrogate c = true -> is_low_surrogate c = false.
Proof.
  intros H. apply high_surrogate_range in H.
  apply not_true_iff_false. rewrite low_surrogate_range. lia.
Qed.

Lemma hex_digit_ascii upper n : n < 16 -> 48 <= hex_digit upper n < 128.
Proof. intros H. unfold hex_digit. destruct (N.ltb_spec n 10), upper; lia. Qed.

Lemma UnicodeEscape_ascii c :
  c < 65536 -> Forall (fun x => 32 <= x < 128) (UnicodeEscape c).
Proof.
  intros Hc. unfold UnicodeEscape.
  assert (H1 : c / 4096 < 16) by (apply N.Div0.div_lt_upper_bound; lia).
  assert (H2 : (c / 256) mod 16 < 16) by now apply N.mod_upper_bound.
  assert (H3 : (c / 16) mod 16 < 16) by now apply N.mod_upper_bound.
  assert (H4 : c mod 16 < 16) by now apply N.mod_upper_bound.
  apply (hex_digit_ascii false) in H1, H2, H3, H4.
  repeat (constructor; [lia|]). constructor.
Qed.

Lemma quote_unit_plain c : Forall plain (quote_unit c).
Proof.
  unfold quote_unit.
  repeat match goal with
         | |- context [N.eqb c ?k] =>
             destruct (N.eqb_spec c k);
             [repeat (constructor; [apply ascii_plain; lia|]); constructor|]
         end.
  destruct ((c <? 32) || is_high_surrogate c || is_low_surrogate c) eqn:E.
  - eapply Forall_impl; [apply UnicodeEscape_ascii|apply ascii_plain].
    apply orb_true_iff in E as [E|E]; [apply orb_true_iff in E as [E|E]|].
    + apply N.ltb_lt in E. lia.
    + apply high_surrogate_range in E. lia.
    + apply low_surrogate_range in E. lia.
  - apply orb_false_iff in E as [E Hlow].
    apply orb_false_iff in E as [E Hhigh]. apply N.ltb_ge in E.
    constructor; [unfold plain; auto | constructor].
Qed.

Lemma well_formed_plain t : Forall plain t -> well_formed t = true.
Proof.
  induction 1 as [|c t (_ & Hh & Hl) Ht IH]; [reflexivity|].
  cbn [well_formed]. now rewrite Hl, Hh.
Qed.

Lemma well_formed_app t1 t2 :
  well_formed t1 = true -> well_formed t2 = true ->
  well_formed (t1 ++ t2) = true.
Proof.
  intros H1 H2. revert H1.
  induction t1 as [|c|c d t IH1 IH2] using list_ind_pair.
  - intros _. exact H2.
  - cbn [well_formed app].
    destruct (is_low_surrogate c); [discriminate|].
    destruct (is_high_surrogate c); [discriminate|].
    intros _. destruct t2; cbn [well_formed app]; exact H2.
  - change ((c :: d :: t) ++ t2) with (c :: d :: (t ++ t2)).
    change (well_formed (c :: d :: t))
      with (if is_low_surrogate c then false
            else if is_high_surrogate c
                 then is_low_surrogate d && well_formed t
                 else well_formed (d :: t)).
    change (well_formed (c :: d :: (t ++ t2)))
      with (if is_low_surrogate c then false
            else if is_high_surrogate c
                 then is_low_surrogate d && well_formed (t ++ t2)
                 else well_formed ((d :: t) ++ t2)).
    destruct (is_low_surrogate c); [discriminate|].
    destruct (is_high_surrogate c).
    + intros H. apply andb_true_iff in H as [Hd Ht].
      now rewrite Hd, IH1.
    + exact IH2.
Qed.

Lemma sound_app t1 t2 : sound t1 -> sound t2 -> sound (t1 ++ t2).
Proof.
  intros [Ha Hw] [Ha' Hw'].
  split; [now apply Forall_app | now apply well_formed_app].
Qed.

Lemma sound_plain t : Forall plain t -> sound t.
Proof.
  intros H. split; [|now apply well_formed_plain].
  eapply Forall_impl; [exact H|]. now intros x (Hx & _).
Qed.

(** Closes the goal that a literal of plain characters is sound. *)
Ltac plain_literal :=
  apply sound_plain;
  repeat (constructor; [apply ascii_plain; cbn; lia|]); constructor.

Lemma quote_units_cons2 c d t :
  quote_units (c :: d :: t) =
  if is_high_surrogate c && is_low_surrogate d
  then c :: d :: quote_units t
  else quote_unit c ++ quote_units (d :: t).
Proof. reflexivity. Qed.

Lemma quote_units_sound t : sound (quote_units t).
Proof.
  induction t as [|c|c d t IH1 IH2] using list_ind_pair.
  - split; [constructor | reflexivity].
  - apply sound_plain, quote_unit_plain.
  - rewrite quote_units_cons2.
    destruct (is_high_surrogate c && is_low_surrogate d) eqn:E.
    + apply andb_true_iff in E as [Hc Hd]. destruct IH1 as [Ha Hw].
      split.
      * apply high_surrogate_range in Hc. apply low_surrogate_range in Hd.
        constructor; [lia|]. constructor; [lia | exact Ha].
      * cbn [well_formed]. now rewrite (high_not_low c Hc), Hc, Hd.
    + apply sound_app; [apply sound_plain, quote_unit_plain | exact IH2].
Qed.

Lemma QuoteJSONString_sound t : sound (QuoteJSONString t).
Proof.
  unfold QuoteJSONString.
  assert (Hq : sound [34]) by plain_literal.
  apply sound_app; [exact Hq|]. apply sound_app; [|exact Hq].
  apply quote_units_sound.
Qed.

Lemma join_sound sep (bs : list (list N)) :
  sound sep -> Forall sound bs -> sound (join sep bs).
Proof.
  intros Hsep. induction 1 as [|b bs Hb Hbs IH]; [now split|].
  destruct bs as [|b' bs]; [exact Hb|].
  rewrite join_cons by discriminate.
  apply sound_app; [exact Hb|]. now apply sound_app.
Qed.

(** Induction on documents, with the items and members at hand. *)
Lemma JSON_induction (P : JSON -> Prop) :
  P JNull ->
  (forall s, P (JString s)) ->
  (forall items, Forall P items -> P (JArray items)) ->
  (forall members, Forall (fun m => P (snd m)) members -> P (JObject members)) ->
  forall j, P j.
Proof.
  intros Hnull Hstring Harray Hobject. fix IH 1. intros [|s|items|members].
  - exact Hnull.
  - apply Hstring.
  - apply Harray. induction items as [|j items IHitems]; constructor;
      [apply IH | exact IHitems].
  - apply Hobject. induction members as [|[k v] members IHmembers];
      constructor; [apply IH | exact IHmembers].
Qed.

Lemma JSON_text_sound (j : JSON) : sound (JSON_text j).
Proof.
  induction j as [|s|items IH|members IH] using JSON_induction.
  - plain_literal.
  - apply QuoteJSONString_sound.
  - cbn [JSON_text].
    apply sound_app; [plain_literal|].
    apply sound_app; [|plain_literal].
    apply join_sound; [plain_literal|].
    apply List.Forall_map. exact IH.
  - cbn [JSON_text].
    apply sound_app; [plain_literal|].
    apply sound_app; [|plain_literal].
    apply join_sound; [plain_literal|].
    apply List.Forall_map. eapply Forall_impl; [exact IH|].
    intros [k v] Hv. cbn [snd] in Hv.
    apply sound_app; [apply QuoteJSONString_sound|].
    apply sound_app; [plain_literal | exact Hv].
Qed.

Lemma unreserved_digit c : 48 <= c <= 57 -> unreserved c = true.
Proof.
  intros [H1 H2]. unfold unreserved.
  rewrite (proj2 (N.leb_le 48 c) H1), (proj2 (N.leb_le c 57) H2).
  cbn [andb]. now rewrite orb_true_r.
Qed.

Lemma unreserved_upper c : 65 <= c <= 90 -> unreserved c = true.
Proof.
  intros [H1 H2]. unfold unreserved.
  now rewrite (proj2 (N.leb_le 65 c) H1), (proj2 (N.leb_le c 90) H2).
Qed.

Lemma unreserved_ascii c : unreserved c = true -> 32 <= c < 128.
Proof.
  unfold unreserved. cbn [existsb].
  rewrite !orb_true_iff, !andb_true_iff, !N.leb_le, !N.eqb_eq. lia.
Qed.

Lemma hex_digit_unreserved n : n < 16 -> unreserved (hex_digit true n) = true.
Proof.
  intros H. unfold hex_digit. destruct (N.ltb_spec n 10).
  - apply unreserved_digit. lia.
  - apply unreserved_upper. lia.
Qed.

Lemma percent_encode_escaped (octets : list N) :
  Forall (fun o => o < 256) octets -> Forall escaped (percent_encode octets).
Proof.
  induction 1 as [|o octets Ho Hos IH]; [constructor|].
  cbn [percent_encode flat_map app].
  constructor; [now right|].
  constructor; [left; apply hex_digit_unreserved;
                apply N.Div0.div_lt_upper_bound; lia|].
  constructor; [left; apply hex_digit_unreserved;
                now apply N.mod_upper_bound|].
  exact IH.
Qed.

Lemma utf8_octets cp : cp < 2097152 -> Forall (fun o => o < 256) (utf8 cp).
Proof.
  intros Hcp. unfold utf8.
  assert (M : forall a, a mod 64 < 64) by (intros a; now apply N.mod_upper_bound).
  destruct (N.ltb_spec cp 128); [repeat constructor; lia|].
  destruct (N.ltb_spec cp 2048).
  { assert (cp / 64 < 32) by (apply N.Div0.div_lt_upper_bound; lia).
    pose proof (M cp). repeat constructor; lia. }
  destruct (N.ltb_spec cp 65536).
  { assert (cp / 4096 < 16) by (apply N.Div0.div_lt_upper_bound; lia).
    pose proof (M cp). pose proof (M (cp / 64)). repeat constructor; lia. }
  assert (cp / 262144 < 8) by (apply N.Div0.div_lt_upper_bound; lia).
  pose proof (M cp). pose proof (M (cp / 64)). pose proof (M (cp / 4096)).
  repeat constructor; lia.
Qed.

Lemma pair_code_point_bound c d :
  is_high_surrogate c = true -> is_low_surrogate d = true ->
  pair_code_point c d < 2097152.
Proof.
  intros Hc Hd. apply high_surrogate_range in Hc.
  apply low_surrogate_range in Hd. unfold pair_code_point. lia.
Qed.

Lemma encodeURIComponent_cons c t :
  encodeURIComponent (c :: t) =
  if unreserved c then option_map (cons c) (encodeURIComponent t)
  else if is_low_surrogate c then None
  else if is_high_surrogate c then
    match t with
    | d :: t' =>
        if is_low_surrogate d
        then option_map (app (percent_encode (utf8 (pair_code_point c d))))
                        (encodeURIComponent t')
        else None
    | [] => None
    end
  else option_map (app (percent_encode (utf8 c))) (encodeURIComponent t).
Proof. reflexivity. Qed.

Lemma well_formed_cons c t :
  well_formed (c :: t) =
  if is_low_surrogate c then false
  else if is_high_surrogate c then
    match t with
    | d :: t' => is_low_surrogate d && well_formed t'
    | [] => false
    end
  else well_formed t.
Proof. reflexivity. Qed.

(** On a text without a surrogate on its own [encodeURIComponent]
    does not throw; on one made of code units it writes unreserved
    characters and percent escapes only. *)
Lemma encodeURIComponent_well_formed t :
  well_formed t = true ->
  exists e,
    encodeURIComponent t = Some e
    /\ (Forall (fun c => c < 65536) t -> Forall escaped e).
Proof.
  assert (Hstep : forall c t,
    (well_formed t = true ->
     exists e, encodeURIComponent t = Some e
               /\ (Forall (fun c => c < 65536) t -> Forall escaped e)) ->
    (forall d t', t = d :: t' -> well_formed t' = true ->
     exists e, encodeURIComponent t' = Some e
               /\ (Forall (fun c => c < 65536) t' -> Forall escaped e)) ->
    well_formed (c :: t) = true ->
    exists e, encodeURIComponent (c :: t) = Some e
              /\ (Forall (fun c => c < 65536) (c :: t) -> Forall escaped e)).
  { clear t. intros c t IHt IHt'.
    rewrite well_formed_cons, encodeURIComponent_cons.
    destruct (unreserved c) eqn:Eu.
    - destruct (ascii_plain c (unreserved_ascii c Eu)) as (_ & Hh & Hl).
      rewrite Hl, Hh. intros Hw. destruct (IHt Hw) as (e & -> & He).
      exists (c :: e). split; [reflexivity|].
      intros Hu. apply Forall_cons in Hu as [_ Hu].
      constructor; [now left | auto].
    - destruct (is_low_surrogate c); [discriminate|].
      destruct (is_high_surrogate c) eqn:Eh.
      + destruct t as [|d t']; [discriminate|].
        intros Hw. apply andb_true_iff in Hw as [Hd Hw]. rewrite Hd.
        destruct (IHt' d t' eq_refl Hw) as (e & -> & He).
        eexists. split; [reflexivity|].
        intros Hu. apply Forall_cons in Hu as [_ Hu].
        apply Forall_cons in Hu as [_ Hu].
        apply Forall_app. split; [|auto].
        apply percent_encode_escaped, utf8_octets.
        now apply pair_code_point_bound.
      + intros Hw. destruct (IHt Hw) as (e & -> & He).
        eexists. split; [reflexivity|].
        intros Hu. apply Forall_cons in Hu as [Hc Hu].
        apply Forall_app. split; [|auto].
        apply percent_encode_escaped, utf8_octets. lia. }
  induction t as [|c|c d t IH1 IH2] using list_ind_pair.
  - intros _. exists []. split; [reflexivity | constructor].
  - apply Hstep; [intros _; exists []; split; [reflexivity | constructor]|].
    discriminate.
  - apply Hstep; [exact IH2|]. intros d' t' [= <- <-]. exact IH1.
Qed.

Lemma hex_digit_lower h :
  h < 16 -> hex_digit false h = nth (N.to_nat h) (js "0123456789abcdef") 0.
Proof.
  intros H.
  assert (Hcases : h = 0 \/ h = 1 \/ h = 2 \/ h = 3 \/ h = 4 \/ h = 5
                   \/ h = 6 \/ h = 7 \/ h = 8 \/ h = 9 \/ h = 10 \/ h = 11
                   \/ h = 12 \/ h = 13 \/ h = 14 \/ h = 15) by lia.
  repeat (destruct Hcases as [->|Hcases]; [reflexivity|]).
  now subst h.
Qed.

Lemma UnicodeEscape_digits c :
  c < 65536 ->
  exists h1 h2 h3 h4,
    h1 < 16 /\ h2 < 16 /\ h3 < 16 /\ h4 < 16
    /\ c = 4096 * h1 + 256 * h2 + 16 * h3 + h4
    /\ UnicodeEscape c =
       92 :: 117 :: List.map (fun h => nth (N.to_nat h)
                                         (js "0123456789abcdef") 0)
                             [h1; h2; h3; h4].
Proof.
  intros Hc.
  assert (H1 : c / 4096 < 16) by (apply N.Div0.div_lt_upper_bound; lia).
  assert (H2 : (c / 256) mod 16 < 16) by now apply N.mod_upper_bound.
  assert (H3 : (c / 16) mod 16 < 16) by now apply N.mod_upper_bound.
  assert (H4 : c mod 16 < 16) by now apply N.mod_upper_bound.
  exists (c / 4096), ((c / 256) mod 16), ((c / 16) mod 16), (c mod 16).
  repeat (split; [assumption|]). split.
  - clear H1 H2 H3 H4. zify. Z.to_euclidean_division_equations. lia.
  - unfold UnicodeEscape. cbn [List.map].
    now rewrite !hex_digit_lower by assumption.
Qed.



(** X18: [dataStr] is always made: on the text of a deck
    [encodeURIComponent] never throws, whatever strings the deck
    holds, lone surrogates included. *)
Theorem dataStr_never_throws (s : State) :
  exists rest,
    encodeURIComponent (deck_text s) = Some rest
    /\ dataStr s = Some (data_prefix ++ rest).
Proof.
  destruct (encodeURIComponent_well_formed (deck_text s)) as (e & He & _).
  { apply (JSON_text_sound (JSON_stringify (processedPresentation s))). }
  exists e. split; [exact He|].
  unfold dataStr. fold (deck_text s). now rewrite He.
Qed.

(** X19: when the text of the deck is made of 16-bit code units, as
    every string of the program is, [dataStr] is the prefix followed
    by unreserved characters and percent escapes only. *)
Theorem dataStr_is_escaped (s : State) :
  Forall (fun c => c < 65536) (deck_text s) ->
  exists rest,
    dataStr s = Some (data_prefix ++ rest) /\ Forall escaped rest.
Proof.
  intros Hu.
  destruct (encodeURIComponent_well_formed (deck_text s)) as (e & He & Hesc).
  { apply (JSON_text_sound (JSON_stringify (processedPresentation s))). }
  exists e. split; [|auto].
  unfold dataStr. fold (deck_text s). now rewrite He.
Qed.

Lemma dataStr_is_escaped_witness :
  Forall (fun c => c < 65536) (deck_text viewing)
  /\ exists rest,
       dataStr viewing = Some (data_prefix ++ rest) /\ Forall escaped rest.
Proof.
  assert (Hu : Forall (fun c => c < 65536) (deck_text viewing)).
  { apply Forall_forall. intros c Hc. apply list_elem_of_In in Hc.
    assert (Hb : forallb (fun c => c <? 65536) (deck_text viewing) = true)
      by (vm_compute; reflexivity).
    rewrite forallb_forall in Hb. now apply N.ltb_lt, Hb. }
  split; [exact Hu | exact (dataStr_is_escaped viewing Hu)].
Defined.

End Text.

(* ===================================================================== *)
(** ** Building again from the contents *)
(* ===================================================================== *)

Section Rebuilding.

Implicit Types (s b : list N) (bs : list (list N)).

Lemma occurs_nn_tail c s i : occurs_nn s i -> occurs_nn (c :: s) (S i).
Proof. intros [H1 H2]. split; assumption. Qed.

Lemma occurs_nn_prefix s1 s2 i : occurs_nn s1 i -> occurs_nn (s1 ++ s2) i.
Proof.
  intros [H1 H2]. split; apply lookup_app_l_Some; assumption.
Qed.

Lemma split_nn_first_nil d s bs : split_nn (d :: s) = [] :: bs -> d = LF.
Proof.
  destruct s as [|e s]; [discriminate|]. rewrite split_nn_cons2.
  destruct (N.eqb_spec d LF) as [->|Hd]; [reflexivity|]. cbn [andb].
  unfold cons_head. destruct (split_nn (e :: s)); discriminate.
Qed.

Lemma blocks_ok_cons b bs :
  bs <> [] ->
  blocks_ok (b :: bs) <->
  (forall i, ~ occurs_nn (b ++ [LF]) i) /\ blocks_ok bs.
Proof. destruct bs; [congruence | reflexivity]. Qed.

Lemma split_nn_blocks_ok s : blocks_ok (split_nn s).
Proof.
  induction s as [|c|c d s IH1 IH2] using list_ind_pair.
  - intros i. apply occurs_nn_nil.
  - intros i. apply occurs_nn_short.
  - rewrite split_nn_cons2.
    destruct ((c =? LF)%N && (d =? LF)%N) eqn:E.
    + apply blocks_ok_cons; [apply split_nn_not_nil|].
      split; [intros i; apply occurs_nn_short | exact IH1].
    + destruct (split_nn (d :: s)) as [|b bs] eqn:Es;
        [now apply split_nn_not_nil in Es|].
      cbn [cons_head].
      assert (Hhead : b = [] \/ exists b', b = d :: b').
      { destruct (split_nn_first d s) as (b0 & bs0 & H0 & Hb0).
        rewrite Es in H0. now injection H0 as -> ->. }
      destruct bs as [|b1 bs].
      * intros i Hi. destruct Hhead as [->|[b' ->]];
          [now apply occurs_nn_short in Hi|].
        destruct (occurs_nn_cons c d b' i E Hi) as (i' & -> & Hi').
        exact (IH2 i' Hi').
      * apply blocks_ok_cons in IH2 as [Hb Hbs]; [|discriminate].
        apply blocks_ok_cons; [discriminate|]. split; [|exact Hbs].
        intros i Hi. destruct Hhead as [->|[b' ->]].
        -- apply split_nn_first_nil in Es. subst d.
           destruct (occurs_nn_cons c LF [] i E Hi) as (i' & _ & Hi').
           now apply occurs_nn_short in Hi'.
        -- destruct (occurs_nn_cons c d (b' ++ [LF]) i E Hi)
             as (i' & -> & Hi').
           exact (Hb i' Hi').
Qed.

Lemma blocks_ok_filter bs : blocks_ok bs -> blocks_ok (List.filter Boolean bs).
Proof.
  induction bs as [|b bs IH]; [trivial|].
  destruct bs as [|b1 bs].
  - intros Hb. destruct b; [exact I | exact Hb].
  - intros H. apply blocks_ok_cons in H as [Hb Hbs]; [|discriminate].
    specialize (IH Hbs).
    change (List.filter Boolean (b :: b1 :: bs))
      with (if Boolean b then b :: List.filter Boolean (b1 :: bs)
            else List.filter Boolean (b1 :: bs)).
    destruct (Boolean b); [|exact IH].
    destruct (List.filter Boolean (b1 :: bs)) as [|b2 bs2] eqn:Ef.
    + intros i Hi. apply (Hb i). now apply occurs_nn_prefix.
    + apply blocks_ok_cons; [discriminate|]. split; assumption.
Qed.

Lemma split_nn_free b : (forall i, ~ occurs_nn b i) -> split_nn b = [b].
Proof.
  intros Hfree. rewrite split_nn_indexOf.
  destruct (indexOf_nn b) as [j|] eqn:Ej; [|reflexivity].
  apply indexOf_nn_Some in Ej as [Hj _]. now apply Hfree in Hj.
Qed.

Lemma split_nn_after_block b s :
  (forall i, ~ occurs_nn (b ++ [LF]) i) ->
  split_nn (b ++ LF :: LF :: s) = b :: split_nn s.
Proof.
  induction b as [|c b IH]; intros Hfree; [reflexivity|].
  assert (Hb : forall i, ~ occurs_nn (b ++ [LF]) i).
  { intros i Hi. apply (Hfree (S i)). now apply occurs_nn_tail. }
  specialize (IH Hb).
  destruct b as [|d b].
  - change (split_nn ([c] ++ LF :: LF :: s))
      with (if (c =? LF)%N && (LF =? LF)%N then [] :: split_nn (LF :: s)
            else cons_head c (split_nn (LF :: LF :: s))).
    destruct (N.eqb_spec c LF) as [->|Hc].
    + exfalso. apply (Hfree 0%nat). split; reflexivity.
    + reflexivity.
  - change ((c :: d :: b) ++ LF :: LF :: s)
      with (c :: d :: (b ++ LF :: LF :: s)).
    rewrite split_nn_cons2.
    destruct ((c =? LF)%N && (d =? LF)%N) eqn:E.
    + exfalso. apply andb_true_iff in E as [Hc Hd].
      apply N.eqb_eq in Hc, Hd. subst c d.
      apply (Hfree 0%nat). split; reflexivity.
    + change (d :: b ++ LF :: LF :: s) with ((d :: b) ++ LF :: LF :: s).
      now rewrite IH.
Qed.

Lemma split_nn_join bs :
  bs <> [] -> blocks_ok bs -> split_nn (join [LF; LF] bs) = bs.
Proof.
  induction bs as [|b bs IH]; [congruence|]. intros _.
  destruct bs as [|b1 bs].
  - intros Hb. now apply split_nn_free.
  - intros H. apply blocks_ok_cons in H as [Hb Hbs]; [|discriminate].
    rewrite join_cons by discriminate.
    change (b ++ [LF; LF] ++ join [LF; LF] (b1 :: bs))
      with (b ++ LF :: LF :: join [LF; LF] (b1 :: bs)).
    rewrite split_nn_after_block by exact Hb.
    now rewrite IH.
Qed.

Lemma filter_Boolean_idem bs :
  List.filter Boolean (List.filter Boolean bs) = List.filter Boolean bs.
Proof.
  induction bs as [|b bs IH]; [reflexivity|].
  destruct b; simpl; [exact IH | now rewrite IH].
Qed.

End Rebuilding.

(** X20: the contents of a built deck, joined with blank lines, build
    the same slides again: the text is cut back into the very blocks
    that were kept. *)
Theorem build_again_from_contents (rawText : jsstring) :
  let kept := List.filter Boolean (split_nn rawText) in
  List.filter Boolean (split_nn (join [LF; LF] kept)) = kept
  /\ derive_slides (join [LF; LF] kept) = derive_slides rawText.
Proof.
  cbv zeta.
  assert (H : List.filter Boolean
                (split_nn (join [LF; LF]
                             (List.filter Boolean (split_nn rawText)))) =
              List.filter Boolean (split_nn rawText)).
  { destruct (List.filter Boolean (split_nn rawText)) as [|b bs] eqn:E;
      [reflexivity|].
    rewrite split_nn_join; [| discriminate |].
    - rewrite <- E. apply filter_Boolean_idem.
    - rewrite <- E. apply blocks_ok_filter, split_nn_blocks_ok. }
  split; [exact H|]. unfold derive_slides. now rewrite H.
Qed.

(* ===================================================================== *)
(** ** Titles *)
(* ===================================================================== *)

Lemma js_inj (a b : string) : js a = js b -> a = b.
Proof.
  unfold js. intros H.
  rewrite <- (string_of_list_ascii_of_string a),
          <- (string_of_list_ascii_of_string b).
  f_equal. revert H.
  generalize (list_ascii_of_string a), (list_ascii_of_string b).
  intros l. induction l as [|x l IH]; intros [|y l']; simpl;
    try discriminate; [reflexivity|].
  intros [= Hxy Hl]. f_equal; [|now apply IH].
  rewrite <- (ascii_N_embedding x), <- (ascii_N_embedding y).
  now rewrite Hxy.
Qed.

Lemma to_uint_not_Nil (n : nat) : Nat.to_uint n <> Decimal.Nil.
Proof.
  intros H. pose proof (DecimalNat.Unsigned.to_of (Nat.to_uint n)) as Hto.
  rewrite DecimalNat.Unsigned.of_to, H in Hto. discriminate.
Qed.

Lemma Number_toString_inj (n m : nat) :
  Number_toString n = Number_toString m -> n = m.
Proof.
  unfold Number_toString. intros H. apply js_inj in H.
  apply DecimalNat.Unsigned.to_uint_inj.
  pose proof (NilZero.usu (Nat.to_uint n) (to_uint_not_Nil n)) as Hn.
  pose proof (NilZero.usu (Nat.to_uint m) (to_uint_not_Nil m)) as Hm.
  rewrite H in Hn. congruence.
Qed.

(** X21: the titles that [build] gives are all different: two slides
    of a built deck never have the same title. *)
Theorem build_titles_differ (rawText title uuid now : jsstring) :
  NoDup (column Ktitle (build rawText title uuid now)).
Proof.
  rewrite column_build_title. apply NoDup_fmap_2; [|apply NoDup_seq].
  intros k k' [= H]. apply Number_toString_inj in H. lia.
Qed.

(* ===================================================================== *)
(** ** The download as a whole *)
(* ===================================================================== *)

Lemma JSON_text_JArray items :
  JSON_text (JArray items) =
  js "[" ++ join (js ",") (List.map JSON_text items) ++ js "]".
Proof. reflexivity. Qed.

(** The slides of a session, as the title and content of each, and
    what is written for them. *)
Lemma plain_slides_written (xs : list (option SlideContent)) :
  Forall plain_slide xs ->
  exists values : list (list N * list N),
    Forall2 (fun x v =>
               get Ktitle (spread x) = Some (VStr (fst v))
               /\ get Kcontent (spread x) = Some (VStr (snd v))
               /\ get KimageUrl (spread x) = Some (VStr [])
               /\ get Kstyle (spread x) = Some (VObj []))
            xs values
    /\ List.map JSON_of_element xs =
       List.map (fun v => JObject [ (js "title", JString (fst v));
                                    (js "content", JString (snd v));
                                    (js "imageUrl", JString []);
                                    (js "style", JObject []) ]) values
    /\ List.map JSON_text (List.map JSON_of_element xs) =
       List.map (fun v => spec_slide_text (fst v) (snd v)) values.
Proof.
  induction 1 as [|x xs (t & c & ->) Hxs (values & Hv & Hdoc & Htext)].
  - exists []. repeat split. constructor.
  - exists ((t, c) :: values). split; [|split].
    + constructor; [repeat split | exact Hv].
    + cbn [List.map]. rewrite Hdoc. reflexivity.
    + cbn [List.map]. rewrite Htext. reflexivity.
Qed.

(** C7: for every deck a session holds, [handleDownload] names the
    file by the title of the deck with each maximal run of white space
    replaced by one underscore, followed by ".json" (the title
    "My  Talk" gives "My_Talk.json"); the document it writes is an
    object with the keys [id], [createdAt], [title] and [slides],
    holding the [id], [createdAt] and [title] of the deck and, under
    [slides], an array with one object per slide, in order, with the
    keys [title], [content], [imageUrl] and [style] holding the title
    and the content of that slide, an empty string and an empty
    object; the text of that document spells this out, and the [href]
    of the anchor is the data prefix followed by that text
    percent-encoded. *)
Theorem handleDownload_file_and_document (props : Props.t) (s : State) :
  reachable props s ->
  let p := processedPresentation s in
  let a := handleDownload s in
  download a = spec_filename (title p)
  /\ (exists values : list (jsstring * jsstring),
        Forall2 (fun x v =>
                   get Ktitle (spread x) = Some (VStr (fst v))
                   /\ get Kcontent (spread x) = Some (VStr (snd v))
                   /\ get KimageUrl (spread x) = Some (VStr [])
                   /\ get Kstyle (spread x) = Some (VObj []))
                (slides p) values
        /\ href_document a =
           JObject
             [ (js "id", JString (id p));
               (js "createdAt", JString (createdAt p));
               (js "title", JString (title p));
               (js "slides",
                JArray
                  (List.map
                     (fun v => JObject [ (js "title", JString (fst v));
                                         (js "content", JString (snd v));
                                         (js "imageUrl", JString []);
                                         (js "style", JObject []) ])
                     values)) ]
        /\ JSON_text (href_document a) =
           spec_deck_text p
             (List.map (fun v => spec_slide_text (fst v) (snd v)) values)
        /\ exists rest,
             encodeURIComponent (JSON_text (href_document a)) = Some rest
             /\ dataStr s = Some (data_prefix ++ rest))
  /\ download (handleDownload (setTitle (js "My  Talk") s)) =
     js "My_Talk.json".
Proof.
  intros Hs. cbv zeta. split; [apply download_spec_filename|].
  split; [|reflexivity].
  destruct (plain_slides_written _ (reachable_plain props s Hs))
    as (values & Hv & Hdoc & Htext).
  exists values. split; [exact Hv|].
  unfold handleDownload. cbn [href_document]. unfold JSON_stringify.
  split; [now rewrite Hdoc|]. split.
  - unfold spec_deck_text, member. rewrite <- Htext, <- JSON_text_JArray.
    reflexivity.
  - destruct (encodeURIComponent_well_formed (deck_text s))
      as (rest & Hrest & _).
    { apply (JSON_text_sound (JSON_stringify (processedPresentation s))). }
    exists rest. split; [exact Hrest|].
    unfold dataStr. fold (deck_text s). now rewrite Hrest.
Qed.

(** The session right after its first effect, on the example text:
    the file is "Demo.json" and the [href] is the example deck,
    percent-encoded. *)
Lemma handleDownload_file_and_document_witness :
  reachable with_onSave mounted
  /\ download (handleDownload mounted) = js "Demo.json"
  /\ dataStr mounted =
     Some (js "data:text/json;charset=utf-8,%7B%22id%22%3A%22id-1%22%2C%22createdAt%22%3A%22t-1%22%2C%22title%22%3A%22Demo%22%2C%22slides%22%3A%5B%7B%22title%22%3A%22Slide%201%22%2C%22content%22%3A%22Intro%20text%22%2C%22imageUrl%22%3A%22%22%2C%22style%22%3A%7B%7D%7D%2C%7B%22title%22%3A%22Slide%202%22%2C%22content%22%3A%22Second%20point%22%2C%22imageUrl%22%3A%22%22%2C%22style%22%3A%7B%7D%7D%2C%7B%22title%22%3A%22Slide%203%22%2C%22content%22%3A%22%5CnThird%20point%22%2C%22imageUrl%22%3A%22%22%2C%22style%22%3A%7B%7D%7D%5D%7D").
Proof.
  assert (Hr : reachable with_onSave mounted) by apply reach_mount.
  split; [exact Hr|]. split; [|vm_compute; reflexivity].
  rewrite (proj1 (handleDownload_file_and_document with_onSave mounted Hr)).
  reflexivity.
Defined.
